(** * qbittorrent-migrator: the torrent-path reconciliation core

    A shallow embedding of [findCorrectTorrentPath], [getExpectedFiles],
    [validateSingleFile] and [validateMultiFileStructure], followed by the
    properties of the manifest builder, the structure hypotheses, the
    file-match validator, the confidence scorer and the candidate selector.

    Modelling conventions.
    - JavaScript numbers that hold sizes are integers ([Z]); counters that
      start at 0 and are only incremented are [nat].
    - Confidence values and ratios are JavaScript doubles in the source.
      They are modelled by exact rationals ([Q]): [0.7] is [7 # 10] and so
      on.  Rounding of binary floating point is outside this reading, so
      the properties stated of it are those that rounding keeps: equations
      between the formulas, non-strict bounds and non-strict orders.  A
      strict inequality between two computed values is stated only under a
      bound on the sizes or counts that keeps the two sides further apart
      than the rounding error.  [incompleteFileConfidence] is the
      arithmetic of the incomplete-file branch on binary64 numbers; it
      shows where the doubles leave the exact reading.
    - The [debug] array is a mutable array of formatted strings.  It is
      modelled as a list of structured lines, one constructor per message
      template, the interpolated values being the constructor arguments.
      [debug.push] appends at the end, [[...debug]] is a snapshot.
    - Exceptions are modelled by a completion type; mutations of [debug]
      made before a throw survive it, as they do in the source.
    - The filesystem is one immutable snapshot [disk]: [fs.statSync] throws
      exactly where [disk] has no entry and [fs.existsSync] answers [true]
      exactly where it has one.  [path.join] of Node is a parameter. *)

From Stdlib Require Import PrimFloat.
From Stdlib Require Import ZArith QArith Qminmax Qfield Lqa Lia List String Ascii Bool PeanoNat.
Import ListNotations.

Set Implicit Arguments.
Local Open Scope nat_scope.

(** ** Data model *)

Module TorrentFile.
Record t : Type := mk { length : Z; path : list string }.
End TorrentFile.

Module Info.
(** [info] of [TorrentData]; ['piece length'] and [pieces] are never read
    by the functions embedded here and are left out. *)
Record t : Type := mk {
  name : string;
  files : option (list TorrentFile.t);
  length : option Z
}.
End Info.

Module TorrentData.
Record t : Type := mk { info : Info.t }.
End TorrentData.

Module ExpectedFile.
(** The anonymous [{ path: string; size: number }]. *)
Record t : Type := mk { path : string; size : Z }.
End ExpectedFile.

Module FileMatch.
Record t : Type := mk {
  expectedPath : string;
  actualPath : string;
  exists_ : bool;
  expectedSize : Z;
  actualSize : Z;
  sizeMatch : bool
}.
End FileMatch.

(** What [fs.statSync] exposes of an inode. *)
Inductive Kind : Type := RegularFile | Directory | Other.

Module Stats.
Record t : Type := mk { size : Z; kind : Kind }.

Definition isFile (s : t) : bool :=
  match kind s with RegularFile => true | _ => false end.

Definition isDirectory (s : t) : bool :=
  match kind s with Directory => true | _ => false end.
End Stats.

Inductive exn : Type :=
| ENOENT (path : string)
| TypeError_undefined
| TypeError_reduce_empty.

(** One constructor per [debug.push] template of the source. *)
Inductive LogLine : Type :=
| StartingAnalysis (paths : nat)
| TorrentName (name : string)
| IsSingleFile (b : bool)
| ExpectedFilesCount (n : nat)
| ExpectedFileLine (i : nat) (path : string) (size : Z)
| TestingPath (n : nat) (basePath : string)
| PathDoesNotExist
| PathExists (isDirectory isFile : bool)
| CheckingAsSingleFile
| CheckingForFileAt (filePath : string)
| FileNotFoundAtExpected
| NotADirectory
| TestingStructure (description testPath : string)
| FoundCandidate (confidence : Q)
| FoundCandidates (n : nat)
| CandidateLine (n : nat) (basePath : string) (confidence : Q)
| SelectedBest (basePath : string) (confidence : Q)
| ValidatingSingleFile (filePath : string)
| FileExistsSizes (expected actual : Z)
| PerfectSizeMatch (confidence : Q)
| IncompleteFile (completionRatio confidence : Q)
| SizeMismatch (confidence : Q)
| ErrorValidatingSingleFile (error : exn)
| ValidatingMultiFile (basePath : string)
| BasePathDoesNotExist
| BasePathNotDirectory
| CheckingFirst (filesToCheck total : nat)
| CheckingFile (path fullPath : string)
| FileExistsLine (expected actual : Z) (sizeMatch : bool)
| FileDoesNotExist
| ResultsLine (existing total perfect : nat)
| CalculatedConfidence (confidence existence perfect : Q).

Module PathMatchResult.
Record t : Type := mk {
  basePath : string;
  confidence : Q;
  matches : list FileMatch.t;
  totalFiles : nat;
  existingFiles : nat;
  debug : list LogLine
}.
End PathMatchResult.

Module SingleResult.
(** The anonymous [{ confidence: number; match: FileMatch }]. *)
Record t : Type := mk { confidence : Q; match_ : FileMatch.t }.
End SingleResult.

(** ** Effects: a [debug] log and exceptions *)

Inductive completion (A : Type) : Type :=
| Normal (a : A)
| Throw (e : exn).

Arguments Throw {A} e.

Definition M (A : Type) : Type := list LogLine -> completion A * list LogLine.

Definition ret {A : Type} (a : A) : M A := fun debug => (Normal a, debug).

Definition bind {A B : Type} (m : M A) (k : A -> M B) : M B :=
  fun debug =>
    match m debug with
    | (Normal a, debug') => k a debug'
    | (Throw e, debug') => (Throw e, debug')
    end.

Definition throw {A : Type} (e : exn) : M A := fun debug => (Throw e, debug).

Definition try_catch {A : Type} (body : M A) (handler : exn -> M A) : M A :=
  fun debug =>
    match body debug with
    | (Normal a, debug') => (Normal a, debug')
    | (Throw e, debug') => handler e debug'
    end.

Definition push (line : LogLine) : M unit :=
  fun debug => (Normal tt, debug ++ [line]).

Definition snapshot : M (list LogLine) := fun debug => (Normal debug, debug).

Declare Scope js_scope.
Delimit Scope js_scope with js.
Notation "x <- m ;; k" := (bind m (fun x => k))
  (at level 61, m at next level, right associativity) : js_scope.
Notation "m ;; k" := (bind m (fun _ => k))
  (at level 61, right associativity) : js_scope.
Local Open Scope js_scope.

(** [array.forEach((x, i) => ...)], the callback receiving element and index. *)
Fixpoint forEach {A : Type} (f : A -> nat -> M unit) (i : nat) (l : list A) : M unit :=
  match l with
  | [] => ret tt
  | x :: l' => f x i ;; forEach f (S i) l'
  end.

(** [array.reduce(f)] without an initial value: a [TypeError] on the empty
    array, otherwise a left fold seeded with the first element. *)
Definition reduce {A : Type} (f : A -> A -> A) (l : list A) : M A :=
  match l with
  | [] => throw TypeError_reduce_empty
  | x :: l' => ret (fold_left f l' x)
  end.

(** Member access on a value that may be [undefined]. *)
Definition deref {A : Type} (x : option A) : M A :=
  match x with
  | Some a => ret a
  | None => throw TypeError_undefined
  end.

(** The comparison [a > b] on numbers. *)
Definition Qgtb (a b : Q) : bool :=
  match (a ?= b)%Q with Gt => true | _ => false end.

(** ** [getExpectedFiles] *)

Definition getExpectedFiles (torrentData : TorrentData.t) : list ExpectedFile.t :=
  let info := TorrentData.info torrentData in
  match Info.files info with
  | Some files =>
      map (fun file =>
             ExpectedFile.mk (String.concat "/" (TorrentFile.path file))
                             (TorrentFile.length file))
          files
  | None =>
      [ ExpectedFile.mk (Info.name info)
                        (match Info.length info with
                         | Some l => l          (* [0 || 0] is [0] as well *)
                         | None => 0%Z
                         end) ]
  end.

(** ** String helpers of the driver

    A JavaScript string is a sequence of code units; the functions below
    work unit by unit and only test for ASCII characters, so a character of
    [string] stands for one code unit. *)

(** [str.replace(/c/g, '')] for a single character [c]. *)
Fixpoint removeChar (c : ascii) (str : string) : string :=
  match str with
  | EmptyString => EmptyString
  | String a rest =>
      if Ascii.eqb a c then removeChar c rest else String a (removeChar c rest)
  end.

(** [str.replace(/c/g, d)] for single characters [c] and [d]. *)
Fixpoint replaceChar (c d : ascii) (str : string) : string :=
  match str with
  | EmptyString => EmptyString
  | String a rest => String (if Ascii.eqb a c then d else a) (replaceChar c d rest)
  end.

(** [sanitizePath]: colons removed, then backslashes turned into dashes. *)
Definition sanitizePath (str : string) : string :=
  replaceChar "\" "-" (removeChar ":" str).

(** The class [[A-Z]] under the [i] flag. *)
Definition isAsciiLetter (c : ascii) : bool :=
  (Ascii.leb "A" c && Ascii.leb c "Z") || (Ascii.leb "a" c && Ascii.leb c "z").

(** [str.replace(/^[A-Z]:\\/i, '')]: a leading drive letter, colon and
    backslash are dropped. *)
Definition stripDrive (str : string) : string :=
  match str with
  | String letter (String colon (String separator rest)) =>
      if isAsciiLetter letter && Ascii.eqb colon ":" && Ascii.eqb separator "\"
      then rest else str
  | _ => str
  end.

(** [str.replace(/\\+$/, '')]: the only match of the pattern is the whole
    run of backslashes that ends the string. *)
Fixpoint stripTrailingBackslashes (str : string) : string :=
  match str with
  | EmptyString => EmptyString
  | String a rest =>
      match stripTrailingBackslashes rest with
      | EmptyString => if Ascii.eqb a "\" then EmptyString else String a EmptyString
      | kept => String a kept
      end
  end.

(** The expression that turns [decodedFastResume.save_path] into
    [normalizedPath] in the driver. *)
Definition normalizeSavePath (save_path : string) : string :=
  replaceChar "\" "/" (stripTrailingBackslashes (stripDrive save_path)).

(** [str.endsWith(suffix)]. *)
Definition endsWith (str suffix : string) : bool :=
  (String.length suffix <=? String.length str)
  && String.eqb (substring (String.length str - String.length suffix)
                           (String.length suffix) str)
                suffix.

(** [str.replace(/suffix$/, replacement)] for a literal [suffix]: the only
    place the pattern can match is the end of the string. *)
Definition replaceSuffix (suffix replacement str : string) : string :=
  if endsWith str suffix
  then (substring 0 (String.length str - String.length suffix) str ++ replacement)%string
  else str.

(** [filePath.replace(/\.fastresume$/, '.torrent')]: the torrent read
    along with a resume file. *)
Definition torrentOfFastResume (filePath : string) : string :=
  replaceSuffix ".fastresume" ".torrent" filePath.

(** [file.replace(/\.torrent$/, '.fastresume')]: the resume file copied
    along with a torrent. *)
Definition fastResumeOfTorrent (file : string) : string :=
  replaceSuffix ".torrent" ".fastresume" file.

(** [str.split('\n')]: an empty string gives one empty piece. *)
Fixpoint splitLines (str : string) : list string :=
  match str with
  | EmptyString => [EmptyString]
  | String a rest =>
      if Ascii.eqb a "010" then EmptyString :: splitLines rest
      else match splitLines rest with
           | piece :: pieces => String a piece :: pieces
           | [] => [String a EmptyString]
           end
  end.

(** The callback of [files.some(...)] in [findBTBackup]. *)
Definition isQBTFile (file : string) : bool :=
  endsWith file ".torrent" || endsWith file ".fastresume" || endsWith file ".resume".

(** The last character of a string, if any. *)
Definition lastChar (str : string) : option ascii :=
  last (map Some (list_ascii_of_string str)) None.

(** A run of [n] backslashes. *)
Fixpoint backslashes (n : nat) : string :=
  match n with
  | 0 => EmptyString
  | S n' => String "\" (backslashes n')
  end.

(** The character [c] occurs in [str]. *)
Definition occursIn (c : ascii) (str : string) : Prop :=
  In c (list_ascii_of_string str).

(** ** The incomplete-file branch on binary64 numbers

    [const completionRatio = actualSize / expectedSize] and
    [confidence = 0.5 + completionRatio * 0.3] of [validateSingleFile], every
    operation rounding to the nearest double as it does in the source; the
    literals [0.3] and [0.8] stand for the doubles nearest to them. *)
#[warnings="-inexact-float"]
Definition incompleteFileConfidence (actualSize expectedSize : PrimFloat.float)
  : PrimFloat.float :=
  let completionRatio := PrimFloat.div actualSize expectedSize in
  PrimFloat.add 0.5%float (PrimFloat.mul completionRatio 0.3%float).

(** The three branches of the confidence of [validateSingleFile] on
    binary64 numbers: [actualSize === expectedSize], then
    [actualSize < expectedSize && actualSize > 0], then the rest. *)
#[warnings="-inexact-float"]
Definition confidenceBinary64 (actualSize expectedSize : PrimFloat.float)
  : PrimFloat.float :=
  if PrimFloat.eqb actualSize expectedSize then 1%float
  else if PrimFloat.ltb actualSize expectedSize && PrimFloat.ltb 0%float actualSize
       then incompleteFileConfidence actualSize expectedSize
       else 0.2%float.

(** How the map over the save paths ends for one save path: the callback
    settles on a Linux path, or the process ends.  The process ends with
    [status] on [process.exit(status)], and with status 1 on an exception
    that nothing catches, which is then [uncaught]. *)
Inductive resolution : Type :=
| Resolved (linuxPath : string)
| Ended (status : Z) (uncaught : option exn).

(** ** Sample data

    A small filesystem and three torrents, used to run the functions on
    concrete inputs. *)

Module Sample.
Local Open Scope string_scope.

(** [path.join] of a normalised base and a relative path. *)
Definition join (a b : string) : string := a ++ "/" ++ b.

Definition disk (p : string) : option Stats.t :=
  if (p =? "/mnt/data") then Some (Stats.mk 4096 Directory)
  else if (p =? "/mnt/data/album") then Some (Stats.mk 4096 Directory)
  else if (p =? "/mnt/data/album/cd1/01.flac") then Some (Stats.mk 10 RegularFile)
  else if (p =? "/mnt/data/album/cd1/02.flac") then Some (Stats.mk 20 RegularFile)
  else if (p =? "/mnt/data/movie.mkv") then Some (Stats.mk 1000 RegularFile)
  else if (p =? "/mnt/old") then Some (Stats.mk 4096 Directory)
  else if (p =? "/mnt/old/movie.mkv") then Some (Stats.mk 400 RegularFile)
  else if (p =? "/mnt/data/season") then Some (Stats.mk 4096 Directory)
  else if (p =? "/mnt/data/season/e11.mkv") then Some (Stats.mk 99 RegularFile)
  else if (p =? "/mnt/data/season/e12.mkv") then Some (Stats.mk 12 RegularFile)
  else if (p =? "/dev/null") then Some (Stats.mk 0 Other)
  else None.

Definition album : TorrentData.t :=
  TorrentData.mk
    (Info.mk "album"
       (Some [ TorrentFile.mk 10 ["cd1"; "01.flac"];
               TorrentFile.mk 20 ["cd1"; "02.flac"] ])
       None).

Definition movie : TorrentData.t :=
  TorrentData.mk (Info.mk "movie.mkv" None (Some 1000%Z)).

(** Twelve episodes; only the last two are on [disk]. *)
Definition season : TorrentData.t :=
  TorrentData.mk
    (Info.mk "season"
       (Some [ TorrentFile.mk 1 ["e01.mkv"]; TorrentFile.mk 2 ["e02.mkv"];
               TorrentFile.mk 3 ["e03.mkv"]; TorrentFile.mk 4 ["e04.mkv"];
               TorrentFile.mk 5 ["e05.mkv"]; TorrentFile.mk 6 ["e06.mkv"];
               TorrentFile.mk 7 ["e07.mkv"]; TorrentFile.mk 8 ["e08.mkv"];
               TorrentFile.mk 9 ["e09.mkv"]; TorrentFile.mk 10 ["e10.mkv"];
               TorrentFile.mk 11 ["e11.mkv"]; TorrentFile.mk 12 ["e12.mkv"] ])
       None).

Definition seasonFiles : list ExpectedFile.t := getExpectedFiles season.

Definition movieFile : ExpectedFile.t := ExpectedFile.mk "movie.mkv" 1000.

(** Four candidates as the selector sees them, two of them tied. *)
Definition candidate (basePath : string) (confidence : Q) : PathMatchResult.t :=
  PathMatchResult.mk basePath confidence [] 1 1 [].

Definition ranked : list PathMatchResult.t :=
  [ candidate "/a" (65 # 100); candidate "/b" 1; candidate "/c" 1;
    candidate "/d" (2 # 10) ].

(** A multi-file torrent that lists no file. *)
Definition hollow : TorrentData.t :=
  TorrentData.mk (Info.mk "hollow" (Some []) None).

(** Directory listings and parent directories of a home directory with two
    [BT_backup] folders. *)
Definition readdir (p : string) : option (list string) :=
  if (p =? "/mnt/data") then Some ["album"; "movie.mkv"; "season"]
  else if (p =? "/mnt/old") then Some ["movie.mkv"; "abc.fastresume"]
  else None.

Definition dirname (p : string) : string :=
  if (p =? "/mnt/data") then "/mnt"
  else if (p =? "/mnt/old") then "/mnt"
  else "/".

(** The command output used below carries no surrounding white space. *)
Definition trim (s : string) : string := s.

Local Close Scope string_scope.
End Sample.

Section Reconciliation.

(** The filesystem snapshot and Node's [path.join]. *)
Variable disk : string -> option Stats.t.
Variable path_join : string -> string -> string.

Definition existsSync (p : string) : bool :=
  match disk p with Some _ => true | None => false end.

Definition statSync (p : string) : M Stats.t :=
  match disk p with
  | Some s => ret s
  | None => throw (ENOENT p)
  end.

(** ** [validateSingleFile] *)

(** The whole body sits in the [try] block.  The initial
    [let confidence = 0.7] of the source is overwritten on each of the
    three branches and is not represented. *)
Definition validateSingleFile (filePath : string)
           (expectedFile : option ExpectedFile.t) : M (option SingleResult.t) :=
  try_catch
    (push (ValidatingSingleFile filePath) ;;
     stat <- statSync filePath ;;
     let actualSize := Stats.size stat in
     expectedFile' <- deref expectedFile ;;
     let expectedSize := ExpectedFile.size expectedFile' in
     push (FileExistsSizes expectedSize actualSize) ;;
     let match_ :=
       FileMatch.mk (ExpectedFile.path expectedFile') filePath true
                    expectedSize actualSize (actualSize =? expectedSize)%Z in
     confidence <-
       (if FileMatch.sizeMatch match_ then
          let confidence := 1%Q in
          push (PerfectSizeMatch confidence) ;; ret confidence
        else if (actualSize <? expectedSize)%Z && (0 <? actualSize)%Z then
          let completionRatio := (inject_Z actualSize / inject_Z expectedSize)%Q in
          let confidence := ((5 # 10) + completionRatio * (3 # 10))%Q in
          push (IncompleteFile completionRatio confidence) ;; ret confidence
        else
          let confidence := (2 # 10)%Q in
          push (SizeMismatch confidence) ;; ret confidence) ;;
     ret (Some (SingleResult.mk confidence match_)))
    (fun error => push (ErrorValidatingSingleFile error) ;; ret None).

(** ** [validateMultiFileStructure] *)

(** The mutable locals of the scan loop. *)
Record Scan : Type := mkScan {
  matches : list FileMatch.t;
  existingFiles : nat;
  perfectMatches : nat
}.

(** The [for (let i = 0; i < expectedFiles.length; i++)] loop, from index
    [i] on, [rest] being the entries not visited yet. *)
Fixpoint scanLoop (basePath : string) (i : nat) (rest : list ExpectedFile.t)
         (st : Scan) : M Scan :=
  match rest with
  | [] => ret st
  | expectedFile :: rest' =>
      let fullPath := path_join basePath (ExpectedFile.path expectedFile) in
      (if i <? 5 then push (CheckingFile (ExpectedFile.path expectedFile) fullPath)
       else ret tt) ;;
      st' <-
        try_catch
          (stat <- statSync fullPath ;;
           let actualSize := Stats.size stat in
           let sizeMatch := (actualSize =? ExpectedFile.size expectedFile)%Z in
           let st1 :=
             mkScan (matches st ++
                       [FileMatch.mk (ExpectedFile.path expectedFile) fullPath true
                                     (ExpectedFile.size expectedFile) actualSize sizeMatch])
                    (S (existingFiles st))
                    (if sizeMatch then S (perfectMatches st) else perfectMatches st) in
           (if i <? 5 then
              push (FileExistsLine (ExpectedFile.size expectedFile) actualSize sizeMatch)
            else ret tt) ;;
           ret st1)
          (fun _ =>
             let st2 :=
               mkScan (matches st ++
                         [FileMatch.mk (ExpectedFile.path expectedFile) fullPath false
                                       (ExpectedFile.size expectedFile) 0%Z false])
                      (existingFiles st) (perfectMatches st) in
             (if i <? 5 then push FileDoesNotExist else ret tt) ;;
             ret st2) ;;
      scanLoop basePath (S i) rest' st'
  end.

(** The score computed after the loop.  [existingFiles / totalFiles] is
    [NaN] in the source when both are 0; that value is only printed, every
    use in the score is guarded by [existingFiles > 0]. *)
Definition existenceRatio (existingFiles totalFiles : nat) : Q :=
  (inject_Z (Z.of_nat existingFiles) / inject_Z (Z.of_nat totalFiles))%Q.

Definition perfectMatchRatio (perfectMatches existingFiles : nat) : Q :=
  if 0 <? existingFiles
  then (inject_Z (Z.of_nat perfectMatches) / inject_Z (Z.of_nat existingFiles))%Q
  else 0%Q.

Definition score (existingFiles perfectMatches totalFiles : nat) : Q :=
  let existenceRatio := existenceRatio existingFiles totalFiles in
  let perfectMatchRatio := perfectMatchRatio perfectMatches existingFiles in
  let confidence := 0%Q in
  if 0 <? existingFiles then
    let confidence := (existenceRatio * (7 # 10) + perfectMatchRatio * (3 # 10))%Q in
    let confidence :=
      if Qgtb existenceRatio (8 # 10) then (confidence + (1 # 10))%Q else confidence in
    let confidence :=
      if Qgtb existenceRatio (5 # 10) then Qmax confidence (6 # 10) else confidence in
    confidence
  else confidence.

Definition validateMultiFileStructure (basePath : string)
           (expectedFiles : list ExpectedFile.t) : M (option PathMatchResult.t) :=
  push (ValidatingMultiFile basePath) ;;
  if negb (existsSync basePath) then
    push BasePathDoesNotExist ;; ret None
  else
    stat <- statSync basePath ;;
    if negb (Stats.isDirectory stat) then
      push BasePathNotDirectory ;; ret None
    else
      let filesToCheck := Nat.min (List.length expectedFiles) 10 in
      push (CheckingFirst filesToCheck (List.length expectedFiles)) ;;
      st <- scanLoop basePath 0 expectedFiles (mkScan [] 0 0) ;;
      push (ResultsLine (existingFiles st) (List.length expectedFiles)
                        (perfectMatches st)) ;;
      let totalFiles := List.length expectedFiles in
      let confidence := score (existingFiles st) (perfectMatches st) totalFiles in
      push (CalculatedConfidence confidence
              (existenceRatio (existingFiles st) totalFiles)
              (perfectMatchRatio (perfectMatches st) (existingFiles st))) ;;
      ret (Some (PathMatchResult.mk basePath confidence (matches st) totalFiles
                                    (existingFiles st) [])).

(** ** [findCorrectTorrentPath] *)

(** The block that both single-file branches share: validate [filePath]
    and push a candidate when a result comes back. *)
Definition checkSingleFile (basePath filePath : string)
           (expectedFile : option ExpectedFile.t)
           (candidates : list PathMatchResult.t) : M (list PathMatchResult.t) :=
  result <- validateSingleFile filePath expectedFile ;;
  match result with
  | Some result =>
      debug <- snapshot ;;
      ret (candidates ++
             [PathMatchResult.mk basePath (SingleResult.confidence result)
                [SingleResult.match_ result] 1
                (if FileMatch.exists_ (SingleResult.match_ result) then 1 else 0)
                debug])
  | None => ret candidates
  end.

Definition pathsToTest (basePath torrentName : string) : list (string * string) :=
  [ (path_join basePath torrentName, "with torrent name folder"%string);
    (basePath, "direct in base path"%string) ].

(** The [for (const { testPath, description } of pathsToTest)] loop. *)
Fixpoint testStructures (basePath : string) (expectedFiles : list ExpectedFile.t)
         (tests : list (string * string))
         (candidates : list PathMatchResult.t) : M (list PathMatchResult.t) :=
  match tests with
  | [] => ret candidates
  | (testPath, description) :: tests' =>
      push (TestingStructure description testPath) ;;
      result <- validateMultiFileStructure testPath expectedFiles ;;
      candidates' <-
        match result with
        | Some result =>
            if Qgtb (PathMatchResult.confidence result) 0 then
              push (FoundCandidate (PathMatchResult.confidence result)) ;;
              debug <- snapshot ;;
              ret (candidates ++
                     [PathMatchResult.mk basePath
                        (PathMatchResult.confidence result)
                        (PathMatchResult.matches result)
                        (PathMatchResult.totalFiles result)
                        (PathMatchResult.existingFiles result)
                        debug])
            else ret candidates
        | None => ret candidates
        end ;;
      testStructures basePath expectedFiles tests' candidates'
  end.

(** The body of the [for] loop over [filePaths], at index [i]. *)
Definition testBasePath (torrentName : string) (isSingleFile : bool)
           (expectedFiles : list ExpectedFile.t) (i : nat) (basePath : string)
           (candidates : list PathMatchResult.t) : M (list PathMatchResult.t) :=
  push (TestingPath (i + 1) basePath) ;;
  if negb (existsSync basePath) then
    push PathDoesNotExist ;; ret candidates
  else
    stat <- statSync basePath ;;
    push (PathExists (Stats.isDirectory stat) (Stats.isFile stat)) ;;
    if isSingleFile then
      push CheckingAsSingleFile ;;
      candidates <-
        (if Stats.isFile stat then
           checkSingleFile basePath basePath (nth_error expectedFiles 0) candidates
         else ret candidates) ;;
      (if Stats.isDirectory stat then
         let filePath := path_join basePath torrentName in
         push (CheckingForFileAt filePath) ;;
         if existsSync filePath then
           checkSingleFile basePath filePath (nth_error expectedFiles 0) candidates
         else
           push FileNotFoundAtExpected ;; ret candidates
       else ret candidates)
    else if negb (Stats.isDirectory stat) then
      push NotADirectory ;; ret candidates
    else
      testStructures basePath expectedFiles (pathsToTest basePath torrentName)
                     candidates.

Fixpoint testPaths (torrentName : string) (isSingleFile : bool)
         (expectedFiles : list ExpectedFile.t) (i : nat) (filePaths : list string)
         (candidates : list PathMatchResult.t) : M (list PathMatchResult.t) :=
  match filePaths with
  | [] => ret candidates
  | basePath :: filePaths' =>
      candidates' <-
        testBasePath torrentName isSingleFile expectedFiles i basePath candidates ;;
      testPaths torrentName isSingleFile expectedFiles (S i) filePaths' candidates'
  end.

(** The callback handed to [candidates.reduce]. *)
Definition better (best current : PathMatchResult.t) : PathMatchResult.t :=
  if Qgtb (PathMatchResult.confidence current) (PathMatchResult.confidence best)
  then current else best.

(** Everything up to the [reduce]: the candidates in the order pushed. *)
Definition collectCandidates (torrentData : TorrentData.t)
           (filePaths : list string) : M (list PathMatchResult.t) :=
  push (StartingAnalysis (List.length filePaths)) ;;
  let torrentName := Info.name (TorrentData.info torrentData) in
  let isSingleFile :=
    match Info.files (TorrentData.info torrentData) with
    | Some _ => false
    | None => true
    end in
  push (TorrentName torrentName) ;;
  push (IsSingleFile isSingleFile) ;;
  let expectedFiles := getExpectedFiles torrentData in
  push (ExpectedFilesCount (List.length expectedFiles)) ;;
  forEach (fun file i =>
             push (ExpectedFileLine i (ExpectedFile.path file) (ExpectedFile.size file)))
          0 (firstn 3 expectedFiles) ;;
  candidates <- testPaths torrentName isSingleFile expectedFiles 0 filePaths [] ;;
  push (FoundCandidates (List.length candidates)) ;;
  forEach (fun candidate i =>
             push (CandidateLine (i + 1) (PathMatchResult.basePath candidate)
                                 (PathMatchResult.confidence candidate)))
          0 candidates ;;
  ret candidates.

Definition selectBest (candidates : list PathMatchResult.t) : M PathMatchResult.t :=
  best <- reduce better candidates ;;
  push (SelectedBest (PathMatchResult.basePath best)
                     (PathMatchResult.confidence best)) ;;
  ret best.

(** The function starts from a fresh [debug] array; the value of the
    returned promise is the completion. *)
Definition findCorrectTorrentPath (torrentData : TorrentData.t)
           (filePaths : list string) : completion PathMatchResult.t :=
  fst ((candidates <- collectCandidates torrentData filePaths ;;
        selectBest candidates) []).


(** ** Readings used by the statements *)

(** What the scan loop records for one entry: the content of the two
    [matches.push] calls, selected by the outcome of [fs.statSync]. *)
Definition probe (basePath : string) (f : ExpectedFile.t) : FileMatch.t :=
  let fullPath := path_join basePath (ExpectedFile.path f) in
  match disk fullPath with
  | Some stat =>
      FileMatch.mk (ExpectedFile.path f) fullPath true (ExpectedFile.size f)
                   (Stats.size stat) (Stats.size stat =? ExpectedFile.size f)%Z
  | None =>
      FileMatch.mk (ExpectedFile.path f) fullPath false (ExpectedFile.size f) 0%Z false
  end.

(** Number of elements of a list that pass a test. *)
Definition tally {A : Type} (p : A -> bool) (l : list A) : nat :=
  List.length (filter p l).

(** The locals after the loop has visited entries recorded as [ms]. *)
Definition absorb (st : Scan) (ms : list FileMatch.t) : Scan :=
  mkScan (matches st ++ ms)
         (existingFiles st + tally FileMatch.exists_ ms)
         (perfectMatches st + tally FileMatch.sizeMatch ms).

(** The lines of [debug] that announce a structural hypothesis being
    put to the test. *)
Definition announces (line : LogLine) : bool :=
  match line with
  | ValidatingSingleFile _ | CheckingForFileAt _
  | TestingStructure _ _ | ValidatingMultiFile _ => true
  | _ => false
  end.

Definition hypotheses (debug : list LogLine) : list LogLine :=
  filter announces debug.

(** The value [validateMultiFileStructure] returns, read off the source
    with the logging removed. *)
Definition verdict (basePath : string) (expectedFiles : list ExpectedFile.t)
  : option PathMatchResult.t :=
  match disk basePath with
  | Some stat =>
      if Stats.isDirectory stat then
        let st := absorb (mkScan [] 0 0) (map (probe basePath) expectedFiles) in
        Some (PathMatchResult.mk basePath
                (score (existingFiles st) (perfectMatches st)
                       (List.length expectedFiles))
                (matches st) (List.length expectedFiles) (existingFiles st) [])
      else None
  | None => None
  end.

(** The confidence [validateSingleFile] assigns to a file that exists. *)
Definition grade (actualSize expectedSize : Z) : Q :=
  if (actualSize =? expectedSize)%Z then 1%Q
  else if (actualSize <? expectedSize)%Z && (0 <? actualSize)%Z then
    ((5 # 10) + (inject_Z actualSize / inject_Z expectedSize) * (3 # 10))%Q
  else (2 # 10)%Q.

(** The hypotheses the source puts to the test for one base path, as
    announcements in [debug] order (single-file: the path itself when it
    is a regular file, the contained file when it is a directory;
    multi-file: the two roots of [pathsToTest] when it is a directory). *)
Definition announced (torrentName : string) (isSingleFile : bool)
           (basePath : string) : list LogLine :=
  match disk basePath with
  | None => []
  | Some stat =>
      if isSingleFile then
        (if Stats.isFile stat then [ValidatingSingleFile basePath] else [])
        ++ (if Stats.isDirectory stat then
              CheckingForFileAt (path_join basePath torrentName)
              :: (if existsSync (path_join basePath torrentName)
                  then [ValidatingSingleFile (path_join basePath torrentName)]
                  else [])
            else [])
      else if Stats.isDirectory stat then
        [ TestingStructure "with torrent name folder" (path_join basePath torrentName);
          ValidatingMultiFile (path_join basePath torrentName);
          TestingStructure "direct in base path" basePath;
          ValidatingMultiFile basePath ]
      else []
  end.

(** A candidate that stems from testing [root]: its matches were taken
    at [root] itself (single-file) or under [root] (multi-file). *)
Definition testedAt (isSingleFile : bool) (expectedFiles : list ExpectedFile.t)
           (root : string) (c : PathMatchResult.t) : Prop :=
  map FileMatch.actualPath (PathMatchResult.matches c)
  = if isSingleFile then [root]
    else map (fun f => path_join root (ExpectedFile.path f)) expectedFiles.

(** The candidates one base path contributes: those of the first
    hypothesis, then those of the second. *)
Definition contributes (torrentName : string) (isSingleFile : bool)
           (expectedFiles : list ExpectedFile.t) (basePath : string)
           (group : list PathMatchResult.t) : Prop :=
  let first := if isSingleFile then basePath else path_join basePath torrentName in
  let second := if isSingleFile then path_join basePath torrentName else basePath in
  exists ga gb : list PathMatchResult.t,
    group = ga ++ gb
    /\ Forall (fun c => PathMatchResult.basePath c = basePath
                        /\ (0 < PathMatchResult.confidence c)%Q
                        /\ testedAt isSingleFile expectedFiles first c) ga
    /\ Forall (fun c => PathMatchResult.basePath c = basePath
                        /\ (0 < PathMatchResult.confidence c)%Q
                        /\ testedAt isSingleFile expectedFiles second c) gb.

(** The per-entry line of the scan loop that is only written for the
    first five entries. *)
Definition isCheckingFile (line : LogLine) : bool :=
  match line with
  | CheckingFile _ _ => true
  | _ => false
  end.

(** ** [findBTBackup] *)

(** Directory listings, [path.dirname] and [String.prototype.trim] are
    parameters; [fs.promises.stat] reads the same snapshot as
    [fs.statSync], and [fs.promises.access] succeeds exactly on the paths
    that exist. *)
Variable readdir : string -> option (list string).
Variable path_dirname : string -> string.
Variable trim : string -> string.

Definition access (p : string) : bool := existsSync p.

(** The [for (const btBackupPath of btBackupPaths)] loop with the final
    [return null]; every [catch] of the loop continues with the next path. *)
Fixpoint searchBTBackup (btBackupPaths : list string) : option string :=
  match btBackupPaths with
  | [] => None
  | btBackupPath :: rest =>
      match disk btBackupPath with
      | None => searchBTBackup rest
      | Some stat =>
          if negb (Stats.isDirectory stat) then searchBTBackup rest
          else
            let parentDir := path_dirname btBackupPath in
            let configFile := path_join parentDir "qBittorrent.conf" in
            if access configFile then Some btBackupPath
            else
              match readdir btBackupPath with
              | Some files =>
                  let hasQBTFiles := existsb isQBTFile files in
                  if hasQBTFiles then Some btBackupPath else searchBTBackup rest
              | None => searchBTBackup rest
              end
      end
  end.

(** [findBTBackup], given what [execAsync] produced: [None] when the
    command failed, otherwise its standard output. *)
Definition findBTBackup (found : option string) : option string :=
  match found with
  | None => None
  | Some stdout =>
      let results := trim stdout in
      if String.eqb results "" then None
      else
        let btBackupPaths :=
          filter (fun line => negb (String.eqb line "")) (splitLines results) in
        searchBTBackup btBackupPaths
  end.

(** ** The driver's use of [findCorrectTorrentPath] *)

(** The body of the map over [pathMap] keys, [linuxPaths] being what
    [findPaths] returned: no hit is [process.exit(1)], one hit is taken as
    it is, several hits are handed to [findCorrectTorrentPath].  No [catch]
    encloses that call, the [Promise.all] or its [await]: what
    [findCorrectTorrentPath] throws ends the process, with status 1. *)
Definition resolveLinuxPath (torrent : TorrentData.t) (linuxPaths : list string)
  : resolution :=
  match linuxPaths with
  | [] => Ended 1 None
  | [only] => Resolved only
  | _ :: _ :: _ =>
      match findCorrectTorrentPath torrent linuxPaths with
      | Normal exactPath => Resolved (PathMatchResult.basePath exactPath)
      | Throw e => Ended 1 (Some e)
      end
  end.

(** ** Shapes of the candidates *)

(** The candidate pushed after [validateSingleFile] succeeded on [filePath]. *)
Definition singleCandidate (basePath filePath : string) (expectedFile : ExpectedFile.t)
           (stat : Stats.t) (debug : list LogLine) : PathMatchResult.t :=
  PathMatchResult.mk basePath
    (grade (Stats.size stat) (ExpectedFile.size expectedFile))
    [FileMatch.mk (ExpectedFile.path expectedFile) filePath true
                  (ExpectedFile.size expectedFile) (Stats.size stat)
                  (Stats.size stat =? ExpectedFile.size expectedFile)%Z]
    1 1 debug.

(** The candidate pushed for a multi-file result [r]. *)
Definition structureCandidate (basePath : string) (r : PathMatchResult.t)
           (debug : list LogLine) : PathMatchResult.t :=
  PathMatchResult.mk basePath (PathMatchResult.confidence r)
    (PathMatchResult.matches r) (PathMatchResult.totalFiles r)
    (PathMatchResult.existingFiles r) debug.

(** The counters of a result agree with its evidence. *)
Definition consistent (c : PathMatchResult.t) : Prop :=
  List.length (PathMatchResult.matches c) = PathMatchResult.totalFiles c
  /\ PathMatchResult.existingFiles c
     = tally FileMatch.exists_ (PathMatchResult.matches c)
  /\ 1 <= PathMatchResult.existingFiles c <= PathMatchResult.totalFiles c.

(** A directory of the search that [findBTBackup] accepts. *)
Definition qualifies (btBackupPath : string) : Prop :=
  exists stat : Stats.t,
    disk btBackupPath = Some stat
    /\ Stats.isDirectory stat = true
    /\ (existsSync (path_join (path_dirname btBackupPath) "qBittorrent.conf") = true
        \/ exists (files : list string) (file stem : string),
             readdir btBackupPath = Some files
             /\ In file files
             /\ (file = (stem ++ ".torrent")%string
                 \/ file = (stem ++ ".fastresume")%string
                 \/ file = (stem ++ ".resume")%string)).

(** A search hit from which [findCorrectTorrentPath] obtains a candidate:
    for a single-file torrent a regular file, or a directory holding an
    entry named after the torrent; for a multi-file torrent a directory
    such that, under [basePath/name] or [basePath] (itself a directory), at
    least one expected file exists. *)
Definition usable (torrentName : string) (isSingleFile : bool)
           (expectedFiles : list ExpectedFile.t) (basePath : string) : Prop :=
  exists st : Stats.t,
    disk basePath = Some st
    /\ if isSingleFile then
         Stats.kind st = RegularFile
         \/ (Stats.kind st = Directory
             /\ existsSync (path_join basePath torrentName) = true)
       else
         Stats.kind st = Directory
         /\ exists (root : string) (f : ExpectedFile.t),
              (root = path_join basePath torrentName \/ root = basePath)
              /\ (exists rs, disk root = Some rs /\ Stats.isDirectory rs = true)
              /\ In f expectedFiles
              /\ existsSync (path_join root (ExpectedFile.path f)) = true.

(** ** The scan loop *)

Lemma hypotheses_app (d1 d2 : list LogLine) :
  hypotheses (d1 ++ d2) = hypotheses d1 ++ hypotheses d2.
Proof. apply filter_app. Qed.

Lemma tally_cons {A : Type} (p : A -> bool) (x : A) (l : list A) :
  tally p (x :: l) = (if p x then 1 else 0) + tally p l.
Proof. unfold tally; simpl; destruct (p x); reflexivity. Qed.

Lemma tally_le_length {A : Type} (p : A -> bool) (l : list A) :
  tally p l <= List.length l.
Proof. apply filter_length_le. Qed.

Lemma absorb_cons (st : Scan) (m : FileMatch.t) (ms : list FileMatch.t) :
  absorb (mkScan (matches st ++ [m])
                 ((if FileMatch.exists_ m then 1 else 0) + existingFiles st)
                 ((if FileMatch.sizeMatch m then 1 else 0) + perfectMatches st))
         ms
  = absorb st (m :: ms).
Proof.
  unfold absorb; cbn [matches existingFiles perfectMatches].
  rewrite !tally_cons, <- app_assoc. f_equal; simpl; lia.
Qed.

Ltac run :=
  cbv beta iota zeta
      delta [bind push ret throw try_catch snapshot deref statSync existsSync].

(** The loop never throws, visits every remaining entry, and announces
    no hypothesis of its own. *)
Lemma scanLoop_run (basePath : string) (rest : list ExpectedFile.t) :
  forall (i : nat) (st : Scan) (debug : list LogLine),
  exists extra : list LogLine,
    scanLoop basePath i rest st debug
    = (Normal (absorb st (map (probe basePath) rest)), debug ++ extra)
    /\ hypotheses extra = [].
Proof.
  induction rest as [|f rest IH]; intros i st debug.
  - exists []. split; [|reflexivity].
    cbn. unfold ret, absorb, tally. cbn.
    rewrite !app_nil_r, !Nat.add_0_r. destruct st; reflexivity.
  - cbn [scanLoop map]. rewrite <- absorb_cons.
    unfold probe at 1 2 3.
    destruct (disk (path_join basePath (ExpectedFile.path f))) as [stat|] eqn:Hstat;
      destruct (i <? 5); run; rewrite Hstat; run;
      cbn [FileMatch.exists_ FileMatch.sizeMatch];
      match goal with
      | |- context [scanLoop basePath (S i) rest ?st' ?d'] =>
          destruct (IH (S i) st' d') as (extra & Hrun & Hhyp)
      end.
    all: try (destruct (Stats.size stat =? ExpectedFile.size f)%Z).
    all: cbn [Nat.add] in *; rewrite Hrun.
    all: eexists; split;
      [ try rewrite <- !app_assoc; reflexivity
      | try rewrite !hypotheses_app; try rewrite Hhyp; reflexivity ].
Qed.

Lemma tally_app {A : Type} (p : A -> bool) (l1 l2 : list A) :
  tally p (l1 ++ l2) = tally p l1 + tally p l2.
Proof. unfold tally. rewrite filter_app, length_app. reflexivity. Qed.

(** Only the entries at an index below 5 leave a [CheckingFile] line. *)
Lemma scanLoop_logs_first_five (basePath : string) (rest : list ExpectedFile.t) :
  forall (i : nat) (st : Scan) (debug : list LogLine),
  exists extra : list LogLine,
    snd (scanLoop basePath i rest st debug) = debug ++ extra
    /\ tally isCheckingFile extra = Nat.min (List.length rest) (5 - i).
Proof.
  induction rest as [|f rest IH]; intros i st debug.
  - exists []. split; [cbn; unfold ret; cbn; rewrite app_nil_r|]; reflexivity.
  - cbn [scanLoop List.length].
    destruct (disk (path_join basePath (ExpectedFile.path f))) as [stat|] eqn:Hstat;
      destruct (Nat.ltb_spec i 5) as [Hi|Hi]; run; rewrite Hstat; run;
      match goal with
      | |- context [scanLoop basePath (S i) rest ?st' ?d'] =>
          destruct (IH (S i) st' d') as (extra & Hrun & Hcount)
      end;
      rewrite Hrun, <- ?app_assoc;
      (eexists; split; [reflexivity|]);
      rewrite ?tally_app, Hcount; unfold tally; cbn [filter isCheckingFile List.length];
      lia.
Qed.

(** ** The two validators, run *)

Lemma validateMultiFileStructure_run (basePath : string)
      (expectedFiles : list ExpectedFile.t) (debug : list LogLine) :
  exists extra : list LogLine,
    validateMultiFileStructure basePath expectedFiles debug
    = (Normal (verdict basePath expectedFiles), debug ++ extra)
    /\ hypotheses extra = [ValidatingMultiFile basePath].
Proof.
  unfold validateMultiFileStructure, verdict. run.
  destruct (disk basePath) as [stat|]; cbn [negb].
  - destruct (Stats.isDirectory stat); cbn [negb].
    + match goal with
      | |- context [scanLoop basePath 0 expectedFiles ?st ?d] =>
          destruct (scanLoop_run basePath expectedFiles 0 st d)
            as (extra & Hrun & Hhyp)
      end.
      rewrite Hrun. eexists; split.
      * rewrite <- !app_assoc. reflexivity.
      * rewrite !hypotheses_app, Hhyp. reflexivity.
    + eexists; split; [rewrite <- app_assoc|]; reflexivity.
  - eexists; split; [rewrite <- app_assoc|]; reflexivity.
Qed.

Lemma validateSingleFile_run (filePath : string) (expectedFile : ExpectedFile.t)
      (debug : list LogLine) :
  exists extra : list LogLine,
    validateSingleFile filePath (Some expectedFile) debug
    = (Normal
         (match disk filePath with
          | Some stat =>
              Some (SingleResult.mk
                      (grade (Stats.size stat) (ExpectedFile.size expectedFile))
                      (FileMatch.mk (ExpectedFile.path expectedFile) filePath true
                         (ExpectedFile.size expectedFile) (Stats.size stat)
                         (Stats.size stat =? ExpectedFile.size expectedFile)%Z))
          | None => None
          end),
       debug ++ extra)
    /\ hypotheses extra = [ValidatingSingleFile filePath].
Proof.
  unfold validateSingleFile, grade. run.
  destruct (disk filePath) as [stat|]; run; cbn [FileMatch.sizeMatch].
  - destruct (Stats.size stat =? ExpectedFile.size expectedFile)%Z;
      [|destruct ((Stats.size stat <? ExpectedFile.size expectedFile)%Z
                  && (0 <? Stats.size stat)%Z)];
      eexists; (split; [rewrite <- !app_assoc|]; reflexivity).
  - eexists; split; [rewrite <- !app_assoc|]; reflexivity.
Qed.

(** An [undefined] expected file is caught like any other error. *)
Lemma validateSingleFile_undefined (filePath : string) (debug : list LogLine) :
  exists extra : list LogLine,
    validateSingleFile filePath None debug = (Normal None, debug ++ extra)
    /\ hypotheses extra = [ValidatingSingleFile filePath].
Proof.
  unfold validateSingleFile. run.
  destruct (disk filePath) as [stat|]; run;
    eexists; (split; [rewrite <- !app_assoc|]; reflexivity).
Qed.

Lemma validateMultiFileStructure_value (basePath : string)
      (expectedFiles : list ExpectedFile.t) (debug : list LogLine) :
  fst (validateMultiFileStructure basePath expectedFiles debug)
  = Normal (verdict basePath expectedFiles).
Proof.
  destruct (validateMultiFileStructure_run basePath expectedFiles debug)
    as (extra & Hrun & _).
  rewrite Hrun. reflexivity.
Qed.

Lemma verdict_inv (basePath : string) (expectedFiles : list ExpectedFile.t)
      (r : PathMatchResult.t) :
  verdict basePath expectedFiles = Some r ->
  let ms := map (probe basePath) expectedFiles in
  r = PathMatchResult.mk basePath
        (score (tally FileMatch.exists_ ms) (tally FileMatch.sizeMatch ms)
               (List.length expectedFiles))
        ms (List.length expectedFiles) (tally FileMatch.exists_ ms) [].
Proof.
  unfold verdict. destruct (disk basePath) as [stat|]; [|discriminate].
  destruct (Stats.isDirectory stat); [|discriminate].
  intros H; inversion H; reflexivity.
Qed.

(** ** Evidence recorded per entry *)

Lemma probe_sizeMatch_exists (basePath : string) (f : ExpectedFile.t) :
  FileMatch.sizeMatch (probe basePath f) = true ->
  FileMatch.exists_ (probe basePath f) = true.
Proof.
  unfold probe. destruct (disk (path_join basePath (ExpectedFile.path f)));
    cbn; [reflexivity | discriminate].
Qed.

Lemma tally_sizeMatch_le_exists (basePath : string) (files : list ExpectedFile.t) :
  tally FileMatch.sizeMatch (map (probe basePath) files)
  <= tally FileMatch.exists_ (map (probe basePath) files).
Proof.
  induction files as [|f files IH]; [reflexivity|].
  cbn [map]. rewrite !tally_cons.
  pose proof (probe_sizeMatch_exists basePath f) as Himp.
  destruct (FileMatch.sizeMatch (probe basePath f)).
  - rewrite (Himp eq_refl). lia.
  - destruct (FileMatch.exists_ (probe basePath f)); lia.
Qed.

Lemma tally_map {A B : Type} (g : A -> B) (p : B -> bool) (l : list A) :
  tally p (map g l) = tally (fun x => p (g x)) l.
Proof.
  induction l as [|x l IH]; [reflexivity|].
  cbn [map]. rewrite !tally_cons, IH. reflexivity.
Qed.

(** ** Arithmetic of the score *)

Lemma Qgtb_spec (a b : Q) : if Qgtb a b then (b < a)%Q else (a <= b)%Q.
Proof.
  unfold Qgtb. destruct (a ?= b)%Q eqn:E.
  - apply Qeq_alt in E. rewrite E. apply Qle_refl.
  - apply Qlt_alt in E. apply Qlt_le_weak, E.
  - apply Qgt_alt in E. exact E.
Qed.

Lemma inject_Z_pos (b : Z) : (0 < b)%Z -> (0 < inject_Z b)%Q.
Proof. intros H. unfold Qlt, inject_Z; simpl. lia. Qed.

Lemma inject_Z_nonneg (a : Z) : (0 <= a)%Z -> (0 <= inject_Z a)%Q.
Proof. intros H. unfold Qle, inject_Z; simpl. lia. Qed.

Lemma ratio_bounds (a b : Z) :
  (0 <= a <= b)%Z -> (0 < b)%Z ->
  (0 <= inject_Z a / inject_Z b <= 1)%Q.
Proof.
  intros [Ha Hab] Hb.
  pose proof (inject_Z_pos Hb).
  split.
  - apply Qle_shift_div_l; [assumption|]. rewrite Qmult_0_l.
    apply inject_Z_nonneg, Ha.
  - apply Qle_shift_div_r; [assumption|]. rewrite Qmult_1_l.
    rewrite <- Zle_Qle. exact Hab.
Qed.

Lemma ratio_strict_bounds (a b : Z) :
  (0 < a < b)%Z ->
  (0 < inject_Z a / inject_Z b < 1)%Q.
Proof.
  intros [Ha Hab].
  assert (0 < inject_Z b)%Q by (apply inject_Z_pos; lia).
  split.
  - apply Qlt_shift_div_l; [assumption|]. rewrite Qmult_0_l.
    apply inject_Z_pos, Ha.
  - apply Qlt_shift_div_r; [assumption|]. rewrite Qmult_1_l.
    rewrite <- Zlt_Qlt. exact Hab.
Qed.

Lemma existenceRatio_bounds (existing total : nat) :
  0 < existing -> existing <= total ->
  (0 < existenceRatio existing total <= 1)%Q.
Proof.
  intros Hpos Hle. unfold existenceRatio.
  assert (0 < inject_Z (Z.of_nat total))%Q by (apply inject_Z_pos; lia).
  split.
  - apply Qlt_shift_div_l; [assumption|]. rewrite Qmult_0_l.
    apply inject_Z_pos. lia.
  - apply ratio_bounds; lia.
Qed.

Lemma perfectMatchRatio_bounds (perfect existing : nat) :
  perfect <= existing ->
  (0 <= perfectMatchRatio perfect existing <= 1)%Q.
Proof.
  intros Hle. unfold perfectMatchRatio.
  destruct (0 <? existing) eqn:E.
  - apply Nat.ltb_lt in E. apply ratio_bounds; lia.
  - split; [apply Qle_refl | discriminate].
Qed.

Lemma grade_bounds (actualSize expectedSize : Z) :
  (2 # 10 <= grade actualSize expectedSize <= 1)%Q.
Proof.
  unfold grade.
  destruct (actualSize =? expectedSize)%Z; [split; discriminate|].
  destruct ((actualSize <? expectedSize)%Z && (0 <? actualSize)%Z) eqn:E;
    [|split; discriminate].
  apply andb_true_iff in E. destruct E as [E1 E2].
  apply Z.ltb_lt in E1, E2.
  pose proof (ratio_strict_bounds (conj E2 E1)).
  split; lra.
Qed.

Lemma score_bounds (existing perfect total : nat) :
  perfect <= existing -> existing <= total ->
  (0 <= score existing perfect total <= 11 # 10)%Q
  /\ ((existenceRatio existing total <= 8 # 10)%Q ->
      (score existing perfect total <= 1)%Q)
  /\ (0 < existing -> (0 < score existing perfect total)%Q).
Proof.
  intros Hpe Het. unfold score.
  destruct (0 <? existing) eqn:E.
  - apply Nat.ltb_lt in E.
    pose proof (existenceRatio_bounds E Het) as He.
    pose proof (perfectMatchRatio_bounds Hpe) as Hp.
    pose proof (Qgtb_spec (existenceRatio existing total) (8 # 10)) as H8.
    pose proof (Qgtb_spec (existenceRatio existing total) (5 # 10)) as H5.
    set (e := existenceRatio existing total) in *.
    set (p := perfectMatchRatio perfect existing) in *.
    destruct (Qgtb e (8 # 10)), (Qgtb e (5 # 10));
      repeat match goal with
             | |- context [Qmax ?x ?y] =>
                 let Hm := fresh "Hm" in
                 destruct (Q.max_spec x y) as [[? Hm]|[? Hm]]; rewrite Hm
             end;
      repeat split; intros; lra.
  - repeat split; try discriminate. intros H. apply Nat.ltb_ge in E. lia.
Qed.

(** ** The loops of [findCorrectTorrentPath], run *)

Lemma validateSingleFile_total (filePath : string)
      (expectedFile : option ExpectedFile.t) (debug : list LogLine) :
  exists (extra : list LogLine) (o : option SingleResult.t),
    validateSingleFile filePath expectedFile debug = (Normal o, debug ++ extra)
    /\ hypotheses extra = [ValidatingSingleFile filePath]
    /\ (forall r, o = Some r ->
          (2 # 10 <= SingleResult.confidence r <= 1)%Q
          /\ FileMatch.actualPath (SingleResult.match_ r) = filePath
          /\ FileMatch.exists_ (SingleResult.match_ r) = true).
Proof.
  destruct expectedFile as [ef|].
  - destruct (validateSingleFile_run filePath ef debug) as (extra & Hrun & Hhyp).
    exists extra. eexists. split; [exact Hrun|]. split; [exact Hhyp|].
    intros r Hr. destruct (disk filePath) as [stat|]; [|discriminate].
    inversion Hr; subst r; cbn. split; [apply grade_bounds|]. split; reflexivity.
  - destruct (validateSingleFile_undefined filePath debug) as (extra & Hrun & Hhyp).
    exists extra, None. split; [exact Hrun|]. split; [exact Hhyp|]. discriminate.
Qed.

Lemma checkSingleFile_run (basePath filePath : string)
      (expectedFile : option ExpectedFile.t)
      (candidates : list PathMatchResult.t) (debug : list LogLine) :
  exists (extra : list LogLine) (new : list PathMatchResult.t),
    checkSingleFile basePath filePath expectedFile candidates debug
    = (Normal (candidates ++ new), debug ++ extra)
    /\ hypotheses extra = [ValidatingSingleFile filePath]
    /\ Forall (fun c => PathMatchResult.basePath c = basePath
                        /\ (0 < PathMatchResult.confidence c)%Q
                        /\ map FileMatch.actualPath (PathMatchResult.matches c)
                           = [filePath]) new.
Proof.
  destruct (validateSingleFile_total filePath expectedFile debug)
    as (extra & o & Hrun & Hhyp & Hres).
  unfold checkSingleFile. run. rewrite Hrun.
  destruct o as [r|].
  - destruct (Hres r eq_refl) as (Hconf & Hpath & _).
    exists extra. eexists [_]. split; [reflexivity|]. split; [exact Hhyp|].
    constructor; [|constructor]. cbn. rewrite Hpath.
    split; [reflexivity|]. split; [lra|reflexivity].
  - exists extra, []. rewrite app_nil_r. split; [reflexivity|].
    split; [exact Hhyp|constructor].
Qed.

Lemma testStructures_run (basePath : string) (expectedFiles : list ExpectedFile.t)
      (tests : list (string * string)) :
  forall (candidates : list PathMatchResult.t) (debug : list LogLine),
  exists (extra : list LogLine) (groups : list (list PathMatchResult.t)),
    testStructures basePath expectedFiles tests candidates debug
    = (Normal (candidates ++ List.concat groups), debug ++ extra)
    /\ hypotheses extra
       = flat_map (fun t => [TestingStructure (snd t) (fst t);
                             ValidatingMultiFile (fst t)]) tests
    /\ Forall2 (fun t g =>
                  Forall (fun c => PathMatchResult.basePath c = basePath
                                   /\ (0 < PathMatchResult.confidence c)%Q
                                   /\ PathMatchResult.matches c
                                      = map (probe (fst t)) expectedFiles) g)
               tests groups.
Proof.
  induction tests as [|[testPath description] tests IH]; intros candidates debug.
  - exists [], []. cbn. unfold ret. rewrite !app_nil_r.
    repeat split. constructor.
  - cbn [testStructures]. run.
    destruct (validateMultiFileStructure_run testPath expectedFiles
                (debug ++ [TestingStructure description testPath]))
      as (extra1 & Hrun & Hhyp1).
    rewrite Hrun.
    destruct (verdict testPath expectedFiles) as [r|] eqn:Hv.
    + pose proof (verdict_inv _ _ Hv) as Hr. cbv zeta in Hr.
      pose proof (Qgtb_spec (PathMatchResult.confidence r) 0) as Hpos.
      destruct (Qgtb (PathMatchResult.confidence r) 0).
      * match goal with
        | |- context [testStructures basePath expectedFiles tests ?c ?d] =>
            destruct (IH c d) as (extra2 & groups & Hrest & Hhyp2 & Hall)
        end.
        rewrite Hrest, <- !app_assoc.
        eexists. eexists (_ :: groups). split; [|split].
        -- cbn [List.concat]. reflexivity.
        -- rewrite !hypotheses_app, Hhyp1, Hhyp2. reflexivity.
        -- constructor; [|exact Hall].
           constructor; [|constructor]. cbn.
           split; [reflexivity|]. split; [exact Hpos|].
           rewrite Hr. reflexivity.
      * destruct (IH candidates
                     ((debug ++ [TestingStructure description testPath]) ++ extra1))
          as (extra2 & groups & Hrest & Hhyp2 & Hall).
        rewrite Hrest, <- !app_assoc.
        eexists. exists ([] :: groups). split; [|split].
        -- reflexivity.
        -- rewrite !hypotheses_app, Hhyp1, Hhyp2. reflexivity.
        -- constructor; [constructor|exact Hall].
    + destruct (IH candidates
                   ((debug ++ [TestingStructure description testPath]) ++ extra1))
        as (extra2 & groups & Hrest & Hhyp2 & Hall).
      rewrite Hrest, <- !app_assoc.
      eexists. exists ([] :: groups). split; [|split].
      * reflexivity.
      * rewrite !hypotheses_app, Hhyp1, Hhyp2. reflexivity.
      * constructor; [constructor|exact Hall].
Qed.

Lemma actualPath_probe (root : string) (files : list ExpectedFile.t) :
  map FileMatch.actualPath (map (probe root) files)
  = map (fun f => path_join root (ExpectedFile.path f)) files.
Proof.
  rewrite map_map. apply map_ext. intros f. unfold probe.
  destruct (disk (path_join root (ExpectedFile.path f))); reflexivity.
Qed.

Lemma testBasePath_run (torrentName : string) (isSingleFile : bool)
      (expectedFiles : list ExpectedFile.t) (i : nat) (basePath : string)
      (candidates : list PathMatchResult.t) (debug : list LogLine) :
  exists (extra : list LogLine) (group : list PathMatchResult.t),
    testBasePath torrentName isSingleFile expectedFiles i basePath candidates debug
    = (Normal (candidates ++ group), debug ++ extra)
    /\ hypotheses extra = announced torrentName isSingleFile basePath
    /\ contributes torrentName isSingleFile expectedFiles basePath group.
Proof.
  unfold testBasePath, announced, contributes. run.
  destruct (disk basePath) as [[sz k]|] eqn:Hbase; cbn [negb]; run.
  2:{ exists [TestingPath (i + 1) basePath; PathDoesNotExist], [].
      rewrite app_nil_r, <- app_assoc. repeat split.
      exists [], []. repeat split; constructor. }
  destruct isSingleFile.
  - (* single-file torrent *)
    destruct k; cbn [Stats.isFile Stats.isDirectory Stats.kind negb]; run.
    + (* the path is a regular file *)
      match goal with
      | |- context [checkSingleFile basePath basePath ?ef candidates ?d] =>
          destruct (checkSingleFile_run basePath basePath ef candidates d)
            as (extra & new & Hrun & Hhyp & Hall)
      end.
      rewrite Hrun, <- !app_assoc.
      eexists. exists new. split; [reflexivity|]. split.
      * rewrite !hypotheses_app, Hhyp. reflexivity.
      * exists new, []. rewrite app_nil_r. repeat split; [exact Hall|constructor].
    + (* the path is a directory *)
      destruct (disk (path_join basePath torrentName)) as [inner|] eqn:Hin.
      * match goal with
        | |- context [checkSingleFile basePath ?fp ?ef candidates ?d] =>
            destruct (checkSingleFile_run basePath fp ef candidates d)
              as (extra & new & Hrun & Hhyp & Hall)
        end.
        rewrite Hrun, <- !app_assoc.
        eexists. exists new. split; [reflexivity|]. split.
        -- rewrite !hypotheses_app, Hhyp. reflexivity.
        -- exists [], new. repeat split; [constructor|exact Hall].
      * rewrite <- !app_assoc.
        eexists. exists []. rewrite app_nil_r. split; [reflexivity|]. split.
        -- reflexivity.
        -- exists [], []. repeat split; constructor.
    + (* neither *)
      rewrite <- !app_assoc.
      eexists. exists []. rewrite app_nil_r. split; [reflexivity|]. split.
      * reflexivity.
      * exists [], []. repeat split; constructor.
  - (* multi-file torrent *)
    destruct k; cbn [Stats.isFile Stats.isDirectory Stats.kind negb]; run.
    2:{ match goal with
        | |- context [testStructures basePath expectedFiles ?ts candidates ?d] =>
            destruct (testStructures_run basePath expectedFiles ts candidates d)
              as (extra & groups & Hrun & Hhyp & Hall)
        end.
        rewrite Hrun, <- !app_assoc.
        unfold pathsToTest in Hall.
        inversion Hall as [|t1 ga ts1 gs1 Ha Hrest]; subst.
        inversion Hrest as [|t2 gb ts2 gs2 Hb Hnil]; subst.
        inversion Hnil; subst. cbn [fst] in Ha, Hb.
        eexists. exists (ga ++ gb). split; [|split].
        - cbn [List.concat]. rewrite app_nil_r. reflexivity.
        - rewrite !hypotheses_app, Hhyp. reflexivity.
        - exists ga, gb. split; [reflexivity|].
          split; (eapply Forall_impl; [|eassumption]);
            cbv beta; intros c (Hb1 & Hb2 & Hb3);
            (split; [exact Hb1|]; split; [exact Hb2|]);
            unfold testedAt; rewrite Hb3; apply actualPath_probe. }
    all: rewrite <- !app_assoc;
      eexists; exists []; rewrite app_nil_r; (split; [reflexivity|]); split;
      [ reflexivity | exists [], []; repeat split; constructor ].
Qed.

Lemma testPaths_run (torrentName : string) (isSingleFile : bool)
      (expectedFiles : list ExpectedFile.t) (filePaths : list string) :
  forall (i : nat) (candidates : list PathMatchResult.t) (debug : list LogLine),
  exists (extra : list LogLine) (groups : list (list PathMatchResult.t)),
    testPaths torrentName isSingleFile expectedFiles i filePaths candidates debug
    = (Normal (candidates ++ List.concat groups), debug ++ extra)
    /\ hypotheses extra = flat_map (announced torrentName isSingleFile) filePaths
    /\ Forall2 (contributes torrentName isSingleFile expectedFiles)
               filePaths groups.
Proof.
  induction filePaths as [|basePath filePaths IH]; intros i candidates debug.
  - exists [], []. cbn. unfold ret. rewrite !app_nil_r.
    repeat split. constructor.
  - cbn [testPaths]. run.
    destruct (testBasePath_run torrentName isSingleFile expectedFiles i
                               basePath candidates debug)
      as (extra1 & group & Hrun & Hhyp1 & Hgroup).
    rewrite Hrun.
    destruct (IH (S i) (candidates ++ group) (debug ++ extra1))
      as (extra2 & groups & Hrest & Hhyp2 & Hall).
    rewrite Hrest, <- !app_assoc.
    exists (extra1 ++ extra2), (group :: groups). split; [|split].
    + reflexivity.
    + rewrite hypotheses_app, Hhyp1, Hhyp2. reflexivity.
    + constructor; assumption.
Qed.

Lemma forEach_logs {A : Type} (f : A -> nat -> M unit) (l : list A) :
  (forall x i debug, exists extra, f x i debug = (Normal tt, debug ++ extra)) ->
  forall (i : nat) (debug : list LogLine),
  exists extra : list LogLine,
    forEach f i l debug = (Normal tt, debug ++ extra).
Proof.
  intros Hf. induction l as [|x l IH]; intros i debug.
  - exists []. cbn. unfold ret. rewrite app_nil_r. reflexivity.
  - cbn [forEach]. unfold bind.
    destruct (Hf x i debug) as (extra1 & Hone). rewrite Hone.
    destruct (IH (S i) (debug ++ extra1)) as (extra2 & Hrun).
    rewrite Hrun, <- app_assoc. eexists; reflexivity.
Qed.

Lemma collectCandidates_run (torrentData : TorrentData.t) (filePaths : list string)
      (debug : list LogLine) :
  let isSingleFile :=
    match Info.files (TorrentData.info torrentData) with
    | Some _ => false
    | None => true
    end in
  exists groups : list (list PathMatchResult.t),
    fst (collectCandidates torrentData filePaths debug)
    = Normal (List.concat groups)
    /\ Forall2 (contributes (Info.name (TorrentData.info torrentData)) isSingleFile
                            (getExpectedFiles torrentData))
               filePaths groups.
Proof.
  intros isSingleFile. unfold collectCandidates. run. fold isSingleFile.
  match goal with
  | |- context [forEach ?f 0 ?l ?d] =>
      destruct (@forEach_logs _ f l) with (i := 0) (debug := d)
        as (extra0 & Hlog0); [intros; eexists; reflexivity|]
  end.
  rewrite Hlog0.
  match goal with
  | |- context [testPaths ?n ?b ?fs 0 filePaths [] ?d] =>
      destruct (testPaths_run n b fs filePaths 0 [] d)
        as (extra1 & groups & Hrun & _ & Hall)
  end.
  rewrite Hrun. cbn [app].
  match goal with
  | |- context [forEach ?f 0 ?l ?d] =>
      destruct (@forEach_logs _ f l) with (i := 0) (debug := d)
        as (extra2 & Hlog2); [intros; eexists; reflexivity|]
  end.
  rewrite Hlog2.
  exists groups. split; [reflexivity|exact Hall].
Qed.

(** ** The reduction *)

(** Folding [better] over [rest] from [seed] returns the first element of
    [seed :: rest] that no later element beats strictly and no earlier
    element equals or beats. *)
Lemma fold_better_first_max (rest : list PathMatchResult.t) :
  forall seed : PathMatchResult.t,
  exists before after : list PathMatchResult.t,
    seed :: rest = before ++ fold_left better rest seed :: after
    /\ Forall (fun c => (PathMatchResult.confidence c
                         < PathMatchResult.confidence (fold_left better rest seed))%Q)
              before
    /\ Forall (fun c => (PathMatchResult.confidence c
                         <= PathMatchResult.confidence (fold_left better rest seed))%Q)
              after.
Proof.
  induction rest as [|current rest IH]; intros seed.
  - exists [], []. repeat split; constructor.
  - cbn [fold_left].
    pose proof (Qgtb_spec (PathMatchResult.confidence current)
                          (PathMatchResult.confidence seed)) as Hcmp.
    destruct (Qgtb (PathMatchResult.confidence current)
                   (PathMatchResult.confidence seed)) eqn:E.
    + assert (Hb : better seed current = current)
        by (unfold better; rewrite E; reflexivity).
      rewrite Hb. destruct (IH current) as (before & after & Heq & Hlt & Hle).
      remember (fold_left better rest current) as best eqn:Hbest.
      exists (seed :: before), after. split; [cbn; rewrite Heq; reflexivity|].
      split; [|exact Hle]. constructor; [|exact Hlt].
      destruct before as [|b before]; cbn in Heq; inversion Heq as [[Hcur Hrest]].
      * rewrite <- Hcur. exact Hcmp.
      * inversion Hlt as [|? ? Hs Hbefore]. rewrite <- Hcur in Hs.
        eapply Qlt_trans; eassumption.
    + assert (Hb : better seed current = seed)
        by (unfold better; rewrite E; reflexivity).
      rewrite Hb. destruct (IH seed) as (before & after & Heq & Hlt & Hle).
      remember (fold_left better rest seed) as best eqn:Hbest.
      destruct before as [|b before]; cbn in Heq; inversion Heq as [[Hseed Hrest]].
      * exists [], (current :: after).
        split; [cbn; congruence|].
        split; [constructor|].
        constructor; [|exact Hle]. rewrite <- Hseed. exact Hcmp.
      * exists (seed :: current :: before), after.
        split; [cbn; congruence|]. split; [|exact Hle].
        inversion Hlt as [|? ? Hs Hbefore]. rewrite <- Hseed in Hs.
        constructor; [exact Hs|]. constructor; [|exact Hbefore].
        eapply Qle_lt_trans; eassumption.
Qed.

Lemma scanLoop_from_start (basePath : string) (expectedFiles : list ExpectedFile.t)
      (debug : list LogLine) :
  let ms := map (probe basePath) expectedFiles in
  fst (scanLoop basePath 0 expectedFiles (mkScan [] 0 0) debug)
  = Normal (mkScan ms (tally FileMatch.exists_ ms) (tally FileMatch.sizeMatch ms)).
Proof.
  destruct (scanLoop_run basePath expectedFiles 0 (mkScan [] 0 0) debug)
    as (extra & Hrun & _).
  rewrite Hrun. reflexivity.
Qed.

Lemma Forall2_probe (basePath : string) (P : ExpectedFile.t -> FileMatch.t -> Prop)
      (files : list ExpectedFile.t) :
  (forall f, P f (probe basePath f)) ->
  Forall2 P files (map (probe basePath) files).
Proof.
  intros HP. induction files as [|f files IH]; constructor; [apply HP|exact IH].
Qed.

(** * The claims *)

(** C1 (amended).  Without a final clamp the confidence of a result lies in
    [0, 1] for the single-file scorer and in [0, 1.1] for the multi-file
    scorer; a multi-file confidence stays within [0, 1] whenever the
    existence ratio does not exceed 0.8, that is, whenever the flat 0.1
    bonus is not added. *)
Theorem confidence_range_without_clamp :
  (forall filePath expectedFile debug r,
      fst (validateSingleFile filePath expectedFile debug) = Normal (Some r) ->
      (0 <= SingleResult.confidence r <= 1)%Q)
  /\ (forall basePath expectedFiles debug r,
        fst (validateMultiFileStructure basePath expectedFiles debug)
        = Normal (Some r) ->
        (0 <= PathMatchResult.confidence r <= 11 # 10)%Q
        /\ ((existenceRatio (PathMatchResult.existingFiles r)
                            (PathMatchResult.totalFiles r) <= 8 # 10)%Q ->
            (PathMatchResult.confidence r <= 1)%Q)).
Proof.
  split.
  - intros filePath expectedFile debug r Hr.
    destruct (validateSingleFile_total filePath expectedFile debug)
      as (extra & o & Hrun & _ & Hres).
    rewrite Hrun in Hr. cbn in Hr. inversion Hr as [Ho].
    destruct (Hres r Ho) as (Hconf & _). lra.
  - intros basePath expectedFiles debug r Hr.
    rewrite validateMultiFileStructure_value in Hr. inversion Hr as [Hv].
    apply verdict_inv in Hv. cbv zeta in Hv. subst r.
    cbn [PathMatchResult.confidence PathMatchResult.existingFiles
         PathMatchResult.totalFiles].
    pose proof (tally_sizeMatch_le_exists basePath expectedFiles) as Hpe.
    pose proof (tally_le_length FileMatch.exists_
                  (map (probe basePath) expectedFiles)) as Het.
    rewrite length_map in Het.
    destruct (score_bounds Hpe Het) as (Hrange & Hclamp & _).
    split; assumption.
Qed.

(** C3.  The multi-file confidence is the weighted sum of the two ratios,
    plus 0.1 when the existence ratio exceeds 0.8, then raised to at least
    0.6 when it exceeds 0.5; with no existing file the confidence is 0 and
    the hypothesis is not pushed as a candidate. *)
Theorem multi_file_confidence_formula
        (basePath : string) (expectedFiles : list ExpectedFile.t)
        (debug : list LogLine) (r : PathMatchResult.t) :
  fst (validateMultiFileStructure basePath expectedFiles debug) = Normal (Some r) ->
  let existingCount := PathMatchResult.existingFiles r in
  let perfectMatchCount := tally FileMatch.sizeMatch (PathMatchResult.matches r) in
  let existenceRatio :=
    (inject_Z (Z.of_nat existingCount)
     / inject_Z (Z.of_nat (PathMatchResult.totalFiles r)))%Q in
  let perfectRatio :=
    (inject_Z (Z.of_nat perfectMatchCount) / inject_Z (Z.of_nat existingCount))%Q in
  (0 < existingCount ->
   exists weighted boosted : Q,
     (weighted == existenceRatio * (7 # 10) + perfectRatio * (3 # 10))%Q
     /\ ((8 # 10 < existenceRatio)%Q -> (boosted == weighted + (1 # 10))%Q)
     /\ ((existenceRatio <= 8 # 10)%Q -> (boosted == weighted)%Q)
     /\ ((5 # 10 < existenceRatio)%Q ->
         (PathMatchResult.confidence r == Qmax boosted (6 # 10))%Q)
     /\ ((existenceRatio <= 5 # 10)%Q ->
         (PathMatchResult.confidence r == boosted)%Q))
  /\ (existingCount = 0 ->
      (PathMatchResult.confidence r == 0)%Q
      /\ forall owner description candidates debug',
          fst (testStructures owner expectedFiles [(basePath, description)]
                              candidates debug')
          = Normal candidates).
Proof.
  intros Hr. rewrite validateMultiFileStructure_value in Hr.
  inversion Hr as [Hv]. pose proof (verdict_inv _ _ Hv) as Hshape.
  cbv zeta in Hshape. subst r.
  cbn [PathMatchResult.confidence PathMatchResult.existingFiles
       PathMatchResult.totalFiles PathMatchResult.matches].
  set (ms := map (probe basePath) expectedFiles) in *.
  split.
  - intros Hpos. unfold score. apply Nat.ltb_lt in Hpos. rewrite Hpos.
    unfold perfectMatchRatio. rewrite Hpos. unfold existenceRatio.
    set (e := (inject_Z (Z.of_nat (tally FileMatch.exists_ ms))
               / inject_Z (Z.of_nat (List.length expectedFiles)))%Q).
    set (p := (inject_Z (Z.of_nat (tally FileMatch.sizeMatch ms))
               / inject_Z (Z.of_nat (tally FileMatch.exists_ ms)))%Q).
    pose proof (Qgtb_spec e (8 # 10)) as H8.
    pose proof (Qgtb_spec e (5 # 10)) as H5.
    exists (e * (7 # 10) + p * (3 # 10))%Q.
    exists (if Qgtb e (8 # 10) then e * (7 # 10) + p * (3 # 10) + (1 # 10)
            else e * (7 # 10) + p * (3 # 10))%Q.
    destruct (Qgtb e (8 # 10)), (Qgtb e (5 # 10));
      repeat split; intros; try reflexivity; lra.
  - intros Hzero. unfold score. rewrite Hzero. cbn [Nat.ltb Nat.leb].
    split; [reflexivity|].
    intros owner description candidates debug'.
    cbn [testStructures]. run.
    destruct (validateMultiFileStructure_run basePath expectedFiles
                (debug' ++ [TestingStructure description basePath]))
      as (extra & Hrun & _).
    rewrite Hrun, Hv.
    cbn [PathMatchResult.confidence]. fold ms.
    unfold score. rewrite Hzero. reflexivity.
Qed.

(** C4, amended.  For a file that exists, the single-file confidence is 1
    on an exact size match, [0.5 + (actualSize / expectedSize) * 0.3] for a
    non-empty file smaller than expected, and 0.2 otherwise; for a file
    that does not exist no result is returned and no candidate is pushed.
    The value of the incomplete-file branch lies between 0.5 and 0.8, both
    included, and strictly between them when the expected size is below
    10^15 bytes. *)
Theorem single_file_confidence_cases
        (filePath : string) (expectedFile : ExpectedFile.t) (debug : list LogLine) :
  match disk filePath with
  | Some stat =>
      let actualSize := Stats.size stat in
      let expectedSize := ExpectedFile.size expectedFile in
      exists r : SingleResult.t,
        fst (validateSingleFile filePath (Some expectedFile) debug) = Normal (Some r)
        /\ (actualSize = expectedSize -> (SingleResult.confidence r == 1)%Q)
        /\ ((0 < actualSize < expectedSize)%Z ->
            (SingleResult.confidence r
             == (5 # 10) + (inject_Z actualSize / inject_Z expectedSize) * (3 # 10))%Q
            /\ (5 # 10 <= SingleResult.confidence r <= 8 # 10)%Q
            /\ ((expectedSize < 10 ^ 15)%Z ->
                (5 # 10 < SingleResult.confidence r < 8 # 10)%Q))
        /\ (actualSize <> expectedSize -> ~ (0 < actualSize < expectedSize)%Z ->
            (SingleResult.confidence r == 2 # 10)%Q)
  | None =>
      fst (validateSingleFile filePath (Some expectedFile) debug) = Normal None
      /\ forall owner candidates,
          fst (checkSingleFile owner filePath (Some expectedFile) candidates debug)
          = Normal candidates
  end.
Proof.
  destruct (validateSingleFile_run filePath expectedFile debug)
    as (extra & Hrun & _).
  destruct (disk filePath) as [stat|] eqn:Hstat.
  - cbv zeta. eexists. rewrite Hrun. split; [reflexivity|].
    cbn [SingleResult.confidence]. unfold grade.
    split; [|split].
    + intros Heq. rewrite Heq, Z.eqb_refl. reflexivity.
    + intros [Hpos Hlt].
      assert (Hne : (Stats.size stat =? ExpectedFile.size expectedFile)%Z = false)
        by (apply Z.eqb_neq; lia).
      assert (Hin : ((Stats.size stat <? ExpectedFile.size expectedFile)%Z
                     && (0 <? Stats.size stat)%Z) = true)
        by (apply andb_true_iff; split; apply Z.ltb_lt; lia).
      rewrite Hne, Hin. split; [reflexivity|].
      pose proof (ratio_strict_bounds (conj Hpos Hlt)) as Hratio.
      split; [split; lra|]. intros _. split; lra.
    + intros Hne Hout.
      apply Z.eqb_neq in Hne. rewrite Hne.
      destruct ((Stats.size stat <? ExpectedFile.size expectedFile)%Z
                && (0 <? Stats.size stat)%Z) eqn:Hin; [|reflexivity].
      apply andb_true_iff in Hin. destruct Hin as [H1 H2].
      apply Z.ltb_lt in H1, H2. exfalso. apply Hout. lia.
  - split; [rewrite Hrun; reflexivity|].
    intros owner candidates. unfold checkSingleFile. run.
    rewrite Hrun. reflexivity.
Qed.

(** C5.  On a non-empty candidate array the reduction returns a candidate
    of maximal confidence, and of those the first in array order; the
    array holds the candidates in evaluation order, base path after base
    path and, for one base path, first hypothesis before second. *)
Theorem selects_first_maximal_candidate :
  (forall candidates debug,
      candidates <> [] ->
      exists best before after,
        fst (selectBest candidates debug) = Normal best
        /\ candidates = before ++ best :: after
        /\ Forall (fun c => (PathMatchResult.confidence c
                             < PathMatchResult.confidence best)%Q) before
        /\ Forall (fun c => (PathMatchResult.confidence c
                             <= PathMatchResult.confidence best)%Q) after)
  /\ (forall torrentData filePaths,
        exists groups : list (list PathMatchResult.t),
          fst (collectCandidates torrentData filePaths []) = Normal (List.concat groups)
          /\ Forall2 (contributes (Info.name (TorrentData.info torrentData))
                                  (match Info.files (TorrentData.info torrentData) with
                                   | Some _ => false
                                   | None => true
                                   end)
                                  (getExpectedFiles torrentData))
                     filePaths groups
          /\ forall debug,
              findCorrectTorrentPath torrentData filePaths
              = fst (selectBest (List.concat groups) debug)).
Proof.
  split.
  - intros [|seed rest] debug Hne; [contradiction Hne; reflexivity|].
    destruct (fold_better_first_max rest seed) as (before & after & Heq & Hlt & Hle).
    exists (fold_left better rest seed), before, after.
    split; [reflexivity|]. split; [exact Heq|]. split; assumption.
  - intros torrentData filePaths.
    destruct (collectCandidates_run torrentData filePaths []) as (groups & Hrun & Hall).
    exists groups. split; [exact Hrun|]. split; [exact Hall|].
    intros debug. unfold findCorrectTorrentPath. unfold bind at 1.
    destruct (collectCandidates torrentData filePaths []) as [[cs|e] d];
      cbn in Hrun; inversion Hrun; subst.
    unfold selectBest. run.
    destruct (List.concat groups); reflexivity.
Qed.

(** C6.  The scan loop visits the whole list: [existingFiles] is the
    number of entries whose stat succeeds, [perfectMatches] the number
    whose actual size equals the expected size, and [matches] holds one
    [FileMatch] per entry in manifest order, however many entries there
    are, while only the first five entries are logged; these values are
    the ones the result is built from. *)
Theorem scan_visits_every_entry
        (basePath : string) (expectedFiles : list ExpectedFile.t)
        (debug : list LogLine) :
  exists st : Scan,
    fst (scanLoop basePath 0 expectedFiles (mkScan [] 0 0) debug) = Normal st
    /\ existingFiles st
       = tally (fun f => existsSync (path_join basePath (ExpectedFile.path f)))
               expectedFiles
    /\ perfectMatches st
       = tally (fun f =>
                  match disk (path_join basePath (ExpectedFile.path f)) with
                  | Some stat => (Stats.size stat =? ExpectedFile.size f)%Z
                  | None => false
                  end)
               expectedFiles
    /\ Forall2 (fun f m =>
                  FileMatch.expectedPath m = ExpectedFile.path f
                  /\ FileMatch.expectedSize m = ExpectedFile.size f
                  /\ FileMatch.actualPath m
                     = path_join basePath (ExpectedFile.path f))
               expectedFiles (matches st)
    /\ (exists extra : list LogLine,
          snd (scanLoop basePath 0 expectedFiles (mkScan [] 0 0) debug)
          = debug ++ extra
          /\ tally isCheckingFile extra = Nat.min (List.length expectedFiles) 5)
    /\ forall stat,
        disk basePath = Some stat -> Stats.isDirectory stat = true ->
        fst (validateMultiFileStructure basePath expectedFiles debug)
        = Normal (Some (PathMatchResult.mk basePath
                          (score (existingFiles st) (perfectMatches st)
                                 (List.length expectedFiles))
                          (matches st) (List.length expectedFiles)
                          (existingFiles st) [])).
Proof.
  eexists. split; [apply scanLoop_from_start|].
  cbn [matches existingFiles perfectMatches].
  split; [|split; [|split; [|split]]].
  - rewrite tally_map. unfold tally. f_equal. apply filter_ext.
    intros f. unfold probe, existsSync.
    destruct (disk (path_join basePath (ExpectedFile.path f))); reflexivity.
  - rewrite tally_map. unfold tally. f_equal. apply filter_ext.
    intros f. unfold probe.
    destruct (disk (path_join basePath (ExpectedFile.path f))); reflexivity.
  - apply Forall2_probe. intros f. unfold probe.
    destruct (disk (path_join basePath (ExpectedFile.path f)));
      repeat split; reflexivity.
  - apply (scanLoop_logs_first_five basePath expectedFiles 0).
  - intros stat Hstat Hdir. rewrite validateMultiFileStructure_value.
    unfold verdict. rewrite Hstat, Hdir. reflexivity.
Qed.

(** C7.  The multi-file validator never throws; for each entry a failed
    stat is recorded as [exists = false], [actualSize = 0],
    [sizeMatch = false], a successful one as [exists = true], the size
    read, and [sizeMatch] telling whether it equals the expected size. *)
Theorem stat_failure_is_evidence
        (basePath : string) (expectedFiles : list ExpectedFile.t)
        (debug : list LogLine) :
  exists o : option PathMatchResult.t,
    fst (validateMultiFileStructure basePath expectedFiles debug) = Normal o
    /\ forall r, o = Some r ->
         Forall2 (fun f m =>
                    match disk (path_join basePath (ExpectedFile.path f)) with
                    | None =>
                        FileMatch.exists_ m = false
                        /\ FileMatch.actualSize m = 0%Z
                        /\ FileMatch.sizeMatch m = false
                    | Some stat =>
                        FileMatch.exists_ m = true
                        /\ FileMatch.actualSize m = Stats.size stat
                        /\ FileMatch.expectedSize m = ExpectedFile.size f
                        /\ FileMatch.sizeMatch m
                           = (FileMatch.actualSize m =? FileMatch.expectedSize m)%Z
                    end)
                 expectedFiles (PathMatchResult.matches r).
Proof.
  exists (verdict basePath expectedFiles).
  split; [apply validateMultiFileStructure_value|].
  intros r Hv. apply verdict_inv in Hv. cbv zeta in Hv. subst r.
  cbn [PathMatchResult.matches].
  apply Forall2_probe. intros f. unfold probe.
  destruct (disk (path_join basePath (ExpectedFile.path f)));
    repeat split; reflexivity.
Qed.


(** C10.  In the evidence of the validators a size match implies
    existence, the counters satisfy
    [perfectMatches <= existingFiles <= totalFiles], and whenever a file
    exists both ratios of the score lie in [0, 1]. *)
Theorem evidence_counts_are_ordered
        (basePath : string) (expectedFiles : list ExpectedFile.t)
        (debug : list LogLine) :
  exists st : Scan,
    fst (scanLoop basePath 0 expectedFiles (mkScan [] 0 0) debug) = Normal st
    /\ Forall (fun m => FileMatch.sizeMatch m = true -> FileMatch.exists_ m = true)
              (matches st)
    /\ perfectMatches st = tally FileMatch.sizeMatch (matches st)
    /\ existingFiles st = tally FileMatch.exists_ (matches st)
    /\ perfectMatches st <= existingFiles st <= List.length expectedFiles
    /\ (0 < existingFiles st ->
        (0 <= existenceRatio (existingFiles st) (List.length expectedFiles) <= 1)%Q
        /\ (0 <= perfectMatchRatio (perfectMatches st) (existingFiles st) <= 1)%Q)
    /\ (forall r,
          fst (validateMultiFileStructure basePath expectedFiles debug)
          = Normal (Some r) ->
          PathMatchResult.matches r = matches st
          /\ PathMatchResult.existingFiles r = existingFiles st
          /\ PathMatchResult.totalFiles r = List.length expectedFiles
          /\ PathMatchResult.confidence r
             = score (existingFiles st) (perfectMatches st)
                     (List.length expectedFiles))
    /\ (forall filePath expectedFile r,
          fst (validateSingleFile filePath expectedFile debug) = Normal (Some r) ->
          FileMatch.exists_ (SingleResult.match_ r) = true).
Proof.
  eexists. split; [apply scanLoop_from_start|].
  cbn [matches existingFiles perfectMatches].
  pose proof (tally_sizeMatch_le_exists basePath expectedFiles) as Hpe.
  pose proof (tally_le_length FileMatch.exists_
                (map (probe basePath) expectedFiles)) as Het.
  rewrite length_map in Het.
  assert (Hshape : forall r,
             fst (validateMultiFileStructure basePath expectedFiles debug)
             = Normal (Some r) ->
             r = PathMatchResult.mk basePath
                   (score (tally FileMatch.exists_ (map (probe basePath) expectedFiles))
                          (tally FileMatch.sizeMatch (map (probe basePath) expectedFiles))
                          (List.length expectedFiles))
                   (map (probe basePath) expectedFiles) (List.length expectedFiles)
                   (tally FileMatch.exists_ (map (probe basePath) expectedFiles)) []).
  { intros r Hr. rewrite validateMultiFileStructure_value in Hr.
    inversion Hr as [Hv]. apply verdict_inv in Hv. exact Hv. }
  split; [|split; [reflexivity|split; [reflexivity|split; [|split; [|split]]]]].
  - apply Forall_forall. intros m Hin.
    apply in_map_iff in Hin. destruct Hin as (f & <- & _).
    apply probe_sizeMatch_exists.
  - split; assumption.
  - intros Hpos. split.
    + pose proof (existenceRatio_bounds Hpos Het). lra.
    + apply (perfectMatchRatio_bounds Hpe).
  - intros r Hr. rewrite (Hshape r Hr). repeat split.
  - intros filePath expectedFile r Hr.
    destruct (validateSingleFile_total filePath expectedFile debug)
      as (extra & o & Hrun & _ & Hres).
    rewrite Hrun in Hr. cbn in Hr. inversion Hr as [Ho].
    apply (Hres r Ho).
Qed.

(** C2 (the code at the failing input).  When no candidate was pushed,
    [candidates.reduce] without an initial value throws: the function
    raises a [TypeError] instead of returning an outcome. *)
Theorem no_candidate_raises
        (torrentData : TorrentData.t) (filePaths : list string) :
  fst (collectCandidates torrentData filePaths []) = Normal [] ->
  findCorrectTorrentPath torrentData filePaths = Throw TypeError_reduce_empty.
Proof.
  intros Hnone. unfold findCorrectTorrentPath. unfold bind at 1.
  destruct (collectCandidates torrentData filePaths []) as [[cs|e] d];
    cbn in Hnone; inversion Hnone; subst.
  reflexivity.
Qed.

(** * Beyond the claims: where candidates come from *)

(** Every candidate is pushed by one of two blocks; a property of
    candidates therefore only has to be checked on the two shapes. *)
Lemma checkSingleFile_candidates (Q : PathMatchResult.t -> Prop)
      (basePath filePath : string) (expectedFile : option ExpectedFile.t)
      (candidates : list PathMatchResult.t) (debug : list LogLine) :
  (forall ef stat dbg,
      expectedFile = Some ef -> disk filePath = Some stat ->
      Q (singleCandidate basePath filePath ef stat dbg)) ->
  Forall Q candidates ->
  exists candidates' debug',
    checkSingleFile basePath filePath expectedFile candidates debug
    = (Normal candidates', debug')
    /\ Forall Q candidates'.
Proof.
  intros Hshape Hall. unfold checkSingleFile. run.
  destruct expectedFile as [ef|].
  - destruct (validateSingleFile_run filePath ef debug) as (extra & Hrun & _).
    rewrite Hrun. destruct (disk filePath) as [stat|] eqn:Hstat.
    + eexists. eexists. split; [reflexivity|].
      apply Forall_app. split; [exact Hall|].
      constructor; [|constructor].
      apply (Hshape ef stat (debug ++ extra) eq_refl eq_refl).
    + eexists. eexists. split; [reflexivity|exact Hall].
  - destruct (validateSingleFile_undefined filePath debug) as (extra & Hrun & _).
    rewrite Hrun. eexists. eexists. split; [reflexivity|exact Hall].
Qed.

Lemma testStructures_candidates (Q : PathMatchResult.t -> Prop)
      (basePath : string) (expectedFiles : list ExpectedFile.t)
      (tests : list (string * string)) :
  (forall root r dbg,
      In root (map fst tests) -> verdict root expectedFiles = Some r ->
      (0 < PathMatchResult.confidence r)%Q ->
      Q (structureCandidate basePath r dbg)) ->
  forall (candidates : list PathMatchResult.t) (debug : list LogLine),
  Forall Q candidates ->
  exists candidates' debug',
    testStructures basePath expectedFiles tests candidates debug
    = (Normal candidates', debug')
    /\ Forall Q candidates'.
Proof.
  induction tests as [|[testPath description] tests IH];
    intros Hshape candidates debug Hall.
  - eexists. eexists. split; [reflexivity|exact Hall].
  - cbn [testStructures]. run.
    destruct (validateMultiFileStructure_run testPath expectedFiles
                (debug ++ [TestingStructure description testPath]))
      as (extra & Hrun & _).
    rewrite Hrun.
    assert (Hrest : forall root r dbg,
               In root (map fst tests) -> verdict root expectedFiles = Some r ->
               (0 < PathMatchResult.confidence r)%Q ->
               Q (structureCandidate basePath r dbg))
      by (intros root r dbg Hin; apply Hshape; right; exact Hin).
    destruct (verdict testPath expectedFiles) as [r|] eqn:Hv;
      [|apply (IH Hrest); exact Hall].
    pose proof (Qgtb_spec (PathMatchResult.confidence r) 0) as Hpos.
    destruct (Qgtb (PathMatchResult.confidence r) 0);
      [|apply (IH Hrest); exact Hall].
    apply (IH Hrest). apply Forall_app. split; [exact Hall|].
    constructor; [|constructor].
    apply (Hshape testPath r); [left; reflexivity|exact Hv|exact Hpos].
Qed.

Lemma testBasePath_candidates (Q : PathMatchResult.t -> Prop)
      (torrentName : string) (isSingleFile : bool)
      (expectedFiles : list ExpectedFile.t) (i : nat) (basePath : string)
      (candidates : list PathMatchResult.t) (debug : list LogLine) :
  (forall filePath ef stat st dbg,
      isSingleFile = true -> disk basePath = Some st ->
      (filePath = basePath /\ Stats.kind st = RegularFile
       \/ filePath = path_join basePath torrentName /\ Stats.kind st = Directory) ->
      nth_error expectedFiles 0 = Some ef -> disk filePath = Some stat ->
      Q (singleCandidate basePath filePath ef stat dbg)) ->
  (forall root st r dbg,
      isSingleFile = false -> disk basePath = Some st ->
      Stats.kind st = Directory ->
      root = path_join basePath torrentName \/ root = basePath ->
      verdict root expectedFiles = Some r ->
      (0 < PathMatchResult.confidence r)%Q ->
      Q (structureCandidate basePath r dbg)) ->
  Forall Q candidates ->
  exists candidates' debug',
    testBasePath torrentName isSingleFile expectedFiles i basePath candidates debug
    = (Normal candidates', debug')
    /\ Forall Q candidates'.
Proof.
  intros Hsingle Hmulti Hall. unfold testBasePath. run.
  destruct (disk basePath) as [[sz k]|] eqn:Hbase; cbn [negb]; run;
    [|eexists; eexists; split; [reflexivity|exact Hall]].
  destruct isSingleFile.
  - destruct k; cbn [Stats.isFile Stats.isDirectory Stats.kind negb]; run.
    + match goal with
      | |- context [checkSingleFile basePath basePath ?ef candidates ?d] =>
          destruct (@checkSingleFile_candidates Q basePath basePath ef candidates d)
            as (cs & d' & Hrun & Hcs); [|exact Hall|]
      end.
      * intros ef stat dbg Hef Hstat.
        apply (Hsingle basePath ef stat (Stats.mk sz RegularFile) dbg);
          auto.
      * rewrite Hrun. eexists. eexists. split; [reflexivity|exact Hcs].
    + destruct (disk (path_join basePath torrentName)) as [inner|] eqn:Hin;
        [|eexists; eexists; split; [reflexivity|exact Hall]].
      match goal with
      | |- context [checkSingleFile basePath ?fp ?ef candidates ?d] =>
          destruct (@checkSingleFile_candidates Q basePath fp ef candidates d)
            as (cs & d' & Hrun & Hcs); [|exact Hall|]
      end.
      * intros ef stat dbg Hef Hstat.
        apply (Hsingle (path_join basePath torrentName) ef stat
                       (Stats.mk sz Directory) dbg); auto.
      * rewrite Hrun. eexists. eexists. split; [reflexivity|exact Hcs].
    + eexists. eexists. split; [reflexivity|exact Hall].
  - destruct k; cbn [Stats.isFile Stats.isDirectory Stats.kind negb]; run;
      try (eexists; eexists; split; [reflexivity|exact Hall]).
    apply testStructures_candidates; [|exact Hall].
    intros root r dbg Hin Hv Hpos.
    apply (Hmulti root (Stats.mk sz Directory) r dbg); auto.
    cbn in Hin. destruct Hin as [<-|[<-|[]]]; [left|right]; reflexivity.
Qed.

Lemma testPaths_candidates (Q : PathMatchResult.t -> Prop)
      (torrentName : string) (isSingleFile : bool)
      (expectedFiles : list ExpectedFile.t) (filePaths : list string) :
  (forall basePath filePath ef stat st dbg,
      In basePath filePaths ->
      isSingleFile = true -> disk basePath = Some st ->
      (filePath = basePath /\ Stats.kind st = RegularFile
       \/ filePath = path_join basePath torrentName /\ Stats.kind st = Directory) ->
      nth_error expectedFiles 0 = Some ef -> disk filePath = Some stat ->
      Q (singleCandidate basePath filePath ef stat dbg)) ->
  (forall basePath root st r dbg,
      In basePath filePaths ->
      isSingleFile = false -> disk basePath = Some st ->
      Stats.kind st = Directory ->
      root = path_join basePath torrentName \/ root = basePath ->
      verdict root expectedFiles = Some r ->
      (0 < PathMatchResult.confidence r)%Q ->
      Q (structureCandidate basePath r dbg)) ->
  forall (i : nat) (candidates : list PathMatchResult.t) (debug : list LogLine),
  Forall Q candidates ->
  exists candidates' debug',
    testPaths torrentName isSingleFile expectedFiles i filePaths candidates debug
    = (Normal candidates', debug')
    /\ Forall Q candidates'.
Proof.
  induction filePaths as [|basePath filePaths IH];
    intros Hsingle Hmulti i candidates debug Hall.
  - eexists. eexists. split; [reflexivity|exact Hall].
  - cbn [testPaths]. run.
    destruct (@testBasePath_candidates Q torrentName isSingleFile expectedFiles i
                basePath candidates debug) as (cs & d' & Hrun & Hcs).
    + intros filePath ef stat st dbg. apply Hsingle. left; reflexivity.
    + intros root st r dbg. apply Hmulti. left; reflexivity.
    + exact Hall.
    + rewrite Hrun. apply IH; [| |exact Hcs].
      * intros bp filePath ef stat st dbg Hin. apply Hsingle. right; exact Hin.
      * intros bp root st r dbg Hin. apply Hmulti. right; exact Hin.
Qed.

(** The induction principle for what [findCorrectTorrentPath] returns. *)
Lemma best_candidate (Q : PathMatchResult.t -> Prop)
      (torrentData : TorrentData.t) (filePaths : list string) :
  let torrentName := Info.name (TorrentData.info torrentData) in
  let expectedFiles := getExpectedFiles torrentData in
  (forall basePath filePath ef stat st dbg,
      In basePath filePaths ->
      Info.files (TorrentData.info torrentData) = None ->
      disk basePath = Some st ->
      (filePath = basePath /\ Stats.kind st = RegularFile
       \/ filePath = path_join basePath torrentName /\ Stats.kind st = Directory) ->
      nth_error expectedFiles 0 = Some ef -> disk filePath = Some stat ->
      Q (singleCandidate basePath filePath ef stat dbg)) ->
  (forall basePath root st r dbg,
      In basePath filePaths ->
      Info.files (TorrentData.info torrentData) <> None ->
      disk basePath = Some st ->
      Stats.kind st = Directory ->
      root = path_join basePath torrentName \/ root = basePath ->
      verdict root expectedFiles = Some r ->
      (0 < PathMatchResult.confidence r)%Q ->
      Q (structureCandidate basePath r dbg)) ->
  exists candidates : list PathMatchResult.t,
    fst (collectCandidates torrentData filePaths []) = Normal candidates
    /\ Forall Q candidates
    /\ match candidates with
       | [] => findCorrectTorrentPath torrentData filePaths
               = Throw TypeError_reduce_empty
       | _ :: _ => exists best,
                     findCorrectTorrentPath torrentData filePaths = Normal best
                     /\ In best candidates
       end.
Proof.
  intros torrentName expectedFiles Hsingle Hmulti.
  unfold findCorrectTorrentPath, collectCandidates. run.
  match goal with
  | |- context [forEach ?f 0 ?l ?d] =>
      destruct (@forEach_logs _ f l) with (i := 0) (debug := d)
        as (extra0 & Hlog0); [intros; eexists; reflexivity|]
  end.
  rewrite Hlog0.
  match goal with
  | |- context [testPaths ?n ?b ?fs 0 filePaths [] ?d] =>
      destruct (@testPaths_candidates Q n b fs filePaths) with
        (i := 0) (candidates := @nil PathMatchResult.t) (debug := d)
        as (cs & d' & Hrun & Hcs)
  end.
  - intros basePath filePath ef stat st dbg Hin Hmode.
    apply Hsingle; [exact Hin|].
    destruct (Info.files (TorrentData.info torrentData)); [discriminate|reflexivity].
  - intros basePath root st r dbg Hin Hmode.
    apply Hmulti; [exact Hin|].
    destruct (Info.files (TorrentData.info torrentData)); [discriminate|].
    discriminate.
  - constructor.
  - rewrite Hrun.
    match goal with
    | |- context [forEach ?f 0 ?l ?d] =>
        destruct (@forEach_logs _ f l) with (i := 0) (debug := d)
          as (extra2 & Hlog2); [intros; eexists; reflexivity|]
    end.
    rewrite Hlog2. exists cs. split; [reflexivity|]. split; [exact Hcs|].
    unfold selectBest. run. destruct cs as [|seed rest]; [reflexivity|].
    eexists. split; [reflexivity|].
    destruct (fold_better_first_max rest seed) as (before & after & Heq & _).
    rewrite Heq. apply in_or_app. right. left. reflexivity.
Qed.

Lemma verdict_positive (root : string) (expectedFiles : list ExpectedFile.t)
      (r : PathMatchResult.t) :
  verdict root expectedFiles = Some r ->
  (0 < PathMatchResult.confidence r)%Q ->
  1 <= tally FileMatch.exists_ (map (probe root) expectedFiles).
Proof.
  intros Hv Hpos. apply verdict_inv in Hv. cbv zeta in Hv. subst r.
  cbn [PathMatchResult.confidence] in Hpos.
  destruct (tally FileMatch.exists_ (map (probe root) expectedFiles)); [|lia].
  exfalso. revert Hpos. unfold score. cbn [Nat.ltb Nat.leb]. apply Qlt_irrefl.
Qed.

(** What holds of every candidate, shape by shape. *)
Lemma candidate_facts (torrentData : TorrentData.t) (filePaths : list string) :
  exists candidates : list PathMatchResult.t,
    fst (collectCandidates torrentData filePaths []) = Normal candidates
    /\ Forall
         (fun c =>
            In (PathMatchResult.basePath c) filePaths
            /\ (exists st,
                   disk (PathMatchResult.basePath c) = Some st
                   /\ (Info.files (TorrentData.info torrentData) <> None ->
                       Stats.kind st = Directory))
            /\ consistent c
            /\ PathMatchResult.totalFiles c
               = List.length (getExpectedFiles torrentData)
            /\ match Info.files (TorrentData.info torrentData) with
               | None =>
                   exists m,
                     PathMatchResult.matches c = [m]
                     /\ PathMatchResult.confidence c
                        = grade (FileMatch.actualSize m) (FileMatch.expectedSize m)
               | Some _ =>
                   PathMatchResult.confidence c
                   = score (PathMatchResult.existingFiles c)
                           (tally FileMatch.sizeMatch (PathMatchResult.matches c))
                           (PathMatchResult.totalFiles c)
               end)
         candidates
    /\ match candidates with
       | [] => findCorrectTorrentPath torrentData filePaths
               = Throw TypeError_reduce_empty
       | _ :: _ => exists best,
                     findCorrectTorrentPath torrentData filePaths = Normal best
                     /\ In best candidates
       end.
Proof.
  apply best_candidate.
  - intros basePath filePath ef stat st dbg Hin Hmode Hbase Hwhere Hef Hstat.
    unfold singleCandidate, consistent, getExpectedFiles.
    rewrite Hmode. cbn.
    repeat split; try reflexivity; try lia; try assumption.
    + exists st. split; [exact Hbase|]. intros Hne. contradiction Hne. reflexivity.
    + eexists. split; reflexivity.
  - intros basePath root st r dbg Hin Hmode Hbase Hkind Hroot Hv Hpos.
    pose proof (verdict_positive _ _ Hv Hpos) as Hone.
    pose proof (verdict_inv _ _ Hv) as Hshape. cbv zeta in Hshape. subst r.
    unfold structureCandidate, consistent. cbn.
    pose proof (tally_le_length FileMatch.exists_
                  (map (probe root) (getExpectedFiles torrentData))) as Hle.
    rewrite length_map in Hle |- *.
    repeat split; try reflexivity; try lia; try assumption.
    + exists st. split; [exact Hbase|]. intros _. exact Hkind.
    + destruct (Info.files (TorrentData.info torrentData));
        [reflexivity|contradiction Hmode; reflexivity].
Qed.

(** ** When a candidate is found *)

Lemma tally_positive {A : Type} (p : A -> bool) (l : list A) :
  1 <= tally p l <-> exists x, In x l /\ p x = true.
Proof.
  unfold tally. split.
  - intros Hpos. destruct (filter p l) as [|x rest] eqn:E; [cbn in Hpos; lia|].
    assert (Hin : In x (filter p l)) by (rewrite E; left; reflexivity).
    apply filter_In in Hin. exists x. exact Hin.
  - intros (x & Hin & Hp).
    assert (Hx : In x (filter p l)) by (apply filter_In; split; assumption).
    destruct (filter p l); [contradiction Hx|cbn; lia].
Qed.

Lemma verdict_accepts (root : string) (expectedFiles : list ExpectedFile.t)
      (rs : Stats.t) (f : ExpectedFile.t) :
  disk root = Some rs -> Stats.isDirectory rs = true ->
  In f expectedFiles ->
  existsSync (path_join root (ExpectedFile.path f)) = true ->
  exists r, verdict root expectedFiles = Some r
            /\ (0 < PathMatchResult.confidence r)%Q.
Proof.
  intros Hroot Hdir Hin Hexists. unfold verdict. rewrite Hroot, Hdir.
  eexists. split; [reflexivity|].
  cbn [PathMatchResult.confidence absorb existingFiles perfectMatches matches
       Nat.add].
  apply score_bounds.
  - apply tally_sizeMatch_le_exists.
  - rewrite <- (length_map (probe root) expectedFiles). apply tally_le_length.
  - apply tally_positive. exists (probe root f). split; [apply in_map, Hin|].
    unfold probe, existsSync in *.
    destruct (disk (path_join root (ExpectedFile.path f))); [reflexivity|discriminate].
Qed.

Lemma verdict_rejects (root : string) (expectedFiles : list ExpectedFile.t)
      (r : PathMatchResult.t) :
  verdict root expectedFiles = Some r ->
  (0 < PathMatchResult.confidence r)%Q ->
  (exists rs, disk root = Some rs /\ Stats.isDirectory rs = true)
  /\ exists f, In f expectedFiles
               /\ existsSync (path_join root (ExpectedFile.path f)) = true.
Proof.
  intros Hv Hpos. pose proof (verdict_positive _ _ Hv Hpos) as Hone. split.
  - unfold verdict in Hv. destruct (disk root) as [rs|]; [|discriminate].
    destruct (Stats.isDirectory rs) eqn:Hdir; [|discriminate].
    exists rs. split; [reflexivity|exact Hdir].
  - apply tally_positive in Hone. destruct Hone as (m & Hin & Hm).
    apply in_map_iff in Hin. destruct Hin as (f & <- & Hf).
    exists f. split; [exact Hf|].
    unfold probe, existsSync in *.
    destruct (disk (path_join root (ExpectedFile.path f))); [reflexivity|discriminate].
Qed.

Lemma testStructures_hit (basePath : string) (expectedFiles : list ExpectedFile.t)
      (tests : list (string * string)) (root : string) (r : PathMatchResult.t) :
  In root (map fst tests) ->
  verdict root expectedFiles = Some r ->
  (0 < PathMatchResult.confidence r)%Q ->
  forall (candidates : list PathMatchResult.t) (debug : list LogLine),
  exists candidates' debug',
    testStructures basePath expectedFiles tests candidates debug
    = (Normal candidates', debug')
    /\ candidates' <> [].
Proof.
  intros Hin Hv Hpos.
  induction tests as [|[testPath description] tests IH]; intros candidates debug;
    [contradiction Hin|].
  cbn [testStructures]. run.
  destruct (validateMultiFileStructure_run testPath expectedFiles
              (debug ++ [TestingStructure description testPath]))
    as (extra & Hrun & _).
  rewrite Hrun. destruct Hin as [Hhere|Hlater].
  - cbn [fst] in Hhere. subst testPath. rewrite Hv.
    assert (Hgt : Qgtb (PathMatchResult.confidence r) 0 = true).
    { unfold Qgtb. apply Qgt_alt in Hpos. rewrite Hpos. reflexivity. }
    rewrite Hgt.
    match goal with
    | |- context [testStructures basePath expectedFiles tests ?cs ?d] =>
        destruct (testStructures_run basePath expectedFiles tests cs d)
          as (extra2 & groups & Hrest & _)
    end.
    rewrite Hrest. eexists. eexists. split; [reflexivity|].
    intros Hnil. apply app_eq_nil in Hnil. destruct Hnil as [Hnil _].
    apply app_eq_nil in Hnil. destruct Hnil as [_ Hnil]. discriminate Hnil.
  - destruct (verdict testPath expectedFiles) as [r'|];
      [destruct (Qgtb (PathMatchResult.confidence r') 0)|];
      apply (IH Hlater).
Qed.

Lemma checkSingleFile_hit (basePath filePath : string) (ef : ExpectedFile.t)
      (candidates : list PathMatchResult.t) (debug : list LogLine) :
  existsSync filePath = true ->
  exists candidates' debug',
    checkSingleFile basePath filePath (Some ef) candidates debug
    = (Normal candidates', debug')
    /\ candidates' <> [].
Proof.
  intros Hexists. unfold checkSingleFile. run.
  destruct (validateSingleFile_run filePath ef debug) as (extra & Hrun & _).
  rewrite Hrun. unfold existsSync in Hexists.
  destruct (disk filePath) as [stat|]; [|discriminate].
  eexists. eexists. split; [reflexivity|].
  intros Hnil. apply app_eq_nil in Hnil. destruct Hnil as [_ Hnil].
  discriminate Hnil.
Qed.

Lemma testBasePath_hit (torrentName : string) (isSingleFile : bool)
      (expectedFiles : list ExpectedFile.t) (i : nat) (basePath : string)
      (candidates : list PathMatchResult.t) (debug : list LogLine) :
  (isSingleFile = true -> exists ef, nth_error expectedFiles 0 = Some ef) ->
  usable torrentName isSingleFile expectedFiles basePath ->
  exists candidates' debug',
    testBasePath torrentName isSingleFile expectedFiles i basePath candidates debug
    = (Normal candidates', debug')
    /\ candidates' <> [].
Proof.
  intros Hfirst (st & Hbase & Huse). unfold testBasePath. run.
  rewrite Hbase. cbn [negb]. run. destruct st as [sz k].
  destruct isSingleFile.
  - destruct (Hfirst eq_refl) as (ef & Hef). rewrite Hef.
    cbn [Stats.kind] in Huse. destruct Huse as [->|[-> Hinner]];
      cbn [Stats.isFile Stats.isDirectory Stats.kind negb]; run.
    + match goal with
      | |- context [checkSingleFile basePath basePath (Some ef) candidates ?d] =>
          destruct (@checkSingleFile_hit basePath basePath ef candidates d)
            as (cs & d' & Hrun & Hne)
      end.
      * unfold existsSync. rewrite Hbase. reflexivity.
      * rewrite Hrun. eexists. eexists. split; [reflexivity|exact Hne].
    + pose proof Hinner as Hinner'. unfold existsSync in Hinner'.
      destruct (disk (path_join basePath torrentName)) eqn:Hin; [|discriminate].
      match goal with
      | |- context [checkSingleFile basePath ?fp (Some ef) candidates ?d] =>
          destruct (@checkSingleFile_hit basePath fp ef candidates d)
            as (cs & d' & Hrun & Hne)
      end.
      * unfold existsSync. rewrite Hin. reflexivity.
      * rewrite Hrun. eexists. eexists. split; [reflexivity|exact Hne].
  - cbn [Stats.kind] in Huse.
    destruct Huse as (-> & root & f & Hroot & (rs & Hrs & Hdir) & Hf & Hexists).
    cbn [Stats.isFile Stats.isDirectory Stats.kind negb]. run.
    destruct (verdict_accepts _ _ Hrs Hdir Hf Hexists) as (r & Hv & Hpos).
    apply (@testStructures_hit basePath expectedFiles
             (pathsToTest basePath torrentName) root r); [|exact Hv|exact Hpos].
    cbn. destruct Hroot as [->| ->]; [left|right; left]; reflexivity.
Qed.

Lemma testPaths_hit (torrentName : string) (isSingleFile : bool)
      (expectedFiles : list ExpectedFile.t) (filePaths : list string) :
  (isSingleFile = true -> exists ef, nth_error expectedFiles 0 = Some ef) ->
  forall (i : nat) (candidates : list PathMatchResult.t) (debug : list LogLine),
  candidates <> []
  \/ (exists basePath, In basePath filePaths
                       /\ usable torrentName isSingleFile expectedFiles basePath) ->
  exists candidates' debug',
    testPaths torrentName isSingleFile expectedFiles i filePaths candidates debug
    = (Normal candidates', debug')
    /\ candidates' <> [].
Proof.
  intros Hfirst.
  induction filePaths as [|basePath filePaths IH]; intros i candidates debug Hwhy.
  - destruct Hwhy as [Hne|(p & [] & _)].
    eexists. eexists. split; [reflexivity|exact Hne].
  - cbn [testPaths]. run.
    destruct (testBasePath_run torrentName isSingleFile expectedFiles i basePath
                               candidates debug)
      as (extra & group & Hrun & _).
    destruct Hwhy as [Hne|(p & [<-|Hin] & Huse)].
    + rewrite Hrun. apply IH. left.
      intros Hnil. apply app_eq_nil in Hnil. apply Hne, Hnil.
    + destruct (@testBasePath_hit torrentName isSingleFile expectedFiles i basePath
                  candidates debug Hfirst Huse) as (cs & d' & Hhit & Hne).
      rewrite Hhit. apply IH. left. exact Hne.
    + rewrite Hrun. apply IH. right. exists p. split; assumption.
Qed.

Lemma collectCandidates_hit (torrentData : TorrentData.t) (filePaths : list string) :
  (exists basePath,
      In basePath filePaths
      /\ usable (Info.name (TorrentData.info torrentData))
                (match Info.files (TorrentData.info torrentData) with
                 | Some _ => false
                 | None => true
                 end)
                (getExpectedFiles torrentData) basePath) ->
  exists candidates : list PathMatchResult.t,
    fst (collectCandidates torrentData filePaths []) = Normal candidates
    /\ candidates <> [].
Proof.
  intros Hhit. unfold collectCandidates. run.
  match goal with
  | |- context [forEach ?f 0 ?l ?d] =>
      destruct (@forEach_logs _ f l) with (i := 0) (debug := d)
        as (extra0 & Hlog0); [intros; eexists; reflexivity|]
  end.
  rewrite Hlog0.
  match goal with
  | |- context [testPaths ?n ?b ?fs 0 filePaths [] ?d] =>
      destruct (@testPaths_hit n b fs filePaths) with
        (i := 0) (candidates := @nil PathMatchResult.t) (debug := d)
        as (cs & d' & Hrun & Hne)
  end.
  - unfold getExpectedFiles.
    destruct (Info.files (TorrentData.info torrentData)); [discriminate|].
    intros _. eexists. reflexivity.
  - right. exact Hhit.
  - rewrite Hrun.
    match goal with
    | |- context [forEach ?f 0 ?l ?d] =>
        destruct (@forEach_logs _ f l) with (i := 0) (debug := d)
          as (extra2 & Hlog2); [intros; eexists; reflexivity|]
    end.
    rewrite Hlog2. exists cs. split; [reflexivity|exact Hne].
Qed.

(** * Beyond the claims: the string helpers *)

Lemma occursIn_cons (c a : ascii) (s : string) :
  occursIn c (String a s) <-> a = c \/ occursIn c s.
Proof using.
  clear disk path_join readdir path_dirname trim.
  reflexivity. Qed.

Lemma occursIn_append (c : ascii) (s t : string) :
  occursIn c (s ++ t) <-> occursIn c s \/ occursIn c t.
Proof using.
  clear disk path_join readdir path_dirname trim.
  unfold occursIn. induction s as [|a s IH]; cbn.
  - tauto.
  - rewrite IH. tauto.
Qed.

Lemma removeChar_absent (c : ascii) (s : string) : ~ occursIn c (removeChar c s).
Proof using.
  clear disk path_join readdir path_dirname trim.
  induction s as [|a s IH]; cbn [removeChar replaceChar]; [intros []|].
  destruct (Ascii.eqb_spec a c) as [->|Hne]; [exact IH|].
  rewrite occursIn_cons. tauto.
Qed.

Lemma removeChar_subset (c x : ascii) (s : string) :
  occursIn x (removeChar c s) -> occursIn x s.
Proof using.
  clear disk path_join readdir path_dirname trim.
  induction s as [|a s IH]; cbn [removeChar replaceChar]; [tauto|].
  destruct (Ascii.eqb_spec a c) as [->|Hne]; rewrite ?occursIn_cons; tauto.
Qed.

Lemma removeChar_fixed (c : ascii) (s : string) :
  removeChar c s = s <-> ~ occursIn c s.
Proof using.
  clear disk path_join readdir path_dirname trim.
  split.
  - intros H. rewrite <- H. apply removeChar_absent.
  - induction s as [|a s IH]; cbn [removeChar replaceChar append]; [reflexivity|].
    rewrite occursIn_cons. intros Hno.
    destruct (Ascii.eqb_spec a c) as [->|Hne]; [tauto|].
    f_equal. apply IH. tauto.
Qed.

Lemma removeChar_append (c : ascii) (s t : string) :
  removeChar c (s ++ t) = (removeChar c s ++ removeChar c t)%string.
Proof using.
  clear disk path_join readdir path_dirname trim.
  induction s as [|a s IH]; cbn [removeChar replaceChar append]; [reflexivity|].
  destruct (Ascii.eqb a c); cbn [append]; rewrite IH; reflexivity.
Qed.

Lemma replaceChar_absent (c d : ascii) (s : string) :
  c <> d -> ~ occursIn c (replaceChar c d s).
Proof using.
  clear disk path_join readdir path_dirname trim.
  intros Hcd. induction s as [|a s IH]; cbn [removeChar replaceChar]; [intros []|].
  rewrite occursIn_cons. destruct (Ascii.eqb_spec a c) as [->|Hne]; intuition congruence.
Qed.

Lemma replaceChar_other (c d x : ascii) (s : string) :
  x <> d -> occursIn x (replaceChar c d s) -> occursIn x s.
Proof using.
  clear disk path_join readdir path_dirname trim.
  intros Hxd. induction s as [|a s IH]; cbn [removeChar replaceChar]; [tauto|].
  rewrite !occursIn_cons. destruct (Ascii.eqb_spec a c) as [->|Hne]; intuition congruence.
Qed.

Lemma replaceChar_fixed (c d : ascii) (s : string) :
  c <> d -> (replaceChar c d s = s <-> ~ occursIn c s).
Proof using.
  clear disk path_join readdir path_dirname trim.
  intros Hcd. split.
  - intros H. rewrite <- H. apply replaceChar_absent, Hcd.
  - induction s as [|a s IH]; cbn [removeChar replaceChar append]; [reflexivity|].
    rewrite occursIn_cons. intros Hno.
    destruct (Ascii.eqb_spec a c) as [->|Hne]; [tauto|].
    f_equal. apply IH. tauto.
Qed.

Lemma replaceChar_append (c d : ascii) (s t : string) :
  replaceChar c d (s ++ t) = (replaceChar c d s ++ replaceChar c d t)%string.
Proof using.
  clear disk path_join readdir path_dirname trim.
  induction s as [|a s IH]; cbn [removeChar replaceChar append]; [reflexivity|]. rewrite IH. reflexivity.
Qed.

(** X6.  A key made by [sanitizePath] holds neither a colon nor a
    backslash, and the strings it leaves unchanged are exactly those that
    hold neither; in particular sanitising twice is sanitising once. *)
Theorem sanitizePath_key_shape (str : string) :
  ~ occursIn ":" (sanitizePath str)
  /\ ~ occursIn "\" (sanitizePath str)
  /\ (sanitizePath str = str <-> ~ occursIn ":" str /\ ~ occursIn "\" str).
Proof using.
  clear disk path_join readdir path_dirname trim.
  assert (Hclean : forall t, ~ occursIn ":" (sanitizePath t)
                             /\ ~ occursIn "\" (sanitizePath t)).
  { intros t. unfold sanitizePath. split.
    - intros H. apply replaceChar_other in H; [|discriminate].
      exact (removeChar_absent _ _ H).
    - apply replaceChar_absent. discriminate. }
  destruct (Hclean str) as [Hc Hb]. split; [exact Hc|]. split; [exact Hb|].
  split.
  - intros H. rewrite <- H. apply Hclean.
  - intros [Hc' Hb']. unfold sanitizePath.
    rewrite (proj2 (removeChar_fixed ":" str) Hc').
    apply replaceChar_fixed; [discriminate|exact Hb'].
Qed.

(** X7.  Keys collide: a colon anywhere in a save path leaves no trace in
    its key, and a backslash gives the same key as a dash in its place, so
    distinct save paths can share one [pathMap] entry. *)
Theorem sanitizePath_collisions (before after : string) :
  sanitizePath (before ++ String ":" after) = sanitizePath (before ++ after)
  /\ sanitizePath (before ++ String "\" after)
     = sanitizePath (before ++ String "-" after).
Proof using.
  clear disk path_join readdir path_dirname trim.
  unfold sanitizePath. rewrite !removeChar_append, !replaceChar_append.
  split; reflexivity.
Qed.

(** ** Trailing backslashes and the drive prefix *)

Lemma lastChar_cons (a : ascii) (s : string) :
  lastChar (String a s) = match s with EmptyString => Some a | _ => lastChar s end.
Proof using.
  clear disk path_join readdir path_dirname trim.
  destruct s; reflexivity. Qed.

Lemma lastChar_occurs (a : ascii) (s : string) :
  lastChar s = Some a -> occursIn a s.
Proof using.
  clear disk path_join readdir path_dirname trim.
  induction s as [|b s IH]; [discriminate|].
  rewrite lastChar_cons, occursIn_cons. destruct s as [|b' s'].
  - intros H; inversion H; tauto.
  - intros H. right. apply IH, H.
Qed.

Lemma stripTrailingBackslashes_cons (a : ascii) (s : string) :
  stripTrailingBackslashes (String a s)
  = match stripTrailingBackslashes s with
    | EmptyString => if Ascii.eqb a "\" then EmptyString else String a EmptyString
    | kept => String a kept
    end.
Proof using.
  clear disk path_join readdir path_dirname trim.
  reflexivity. Qed.

Lemma stripTrailingBackslashes_spec (str : string) :
  lastChar (stripTrailingBackslashes str) <> Some "\"%char
  /\ exists n : nat, str = (stripTrailingBackslashes str ++ backslashes n)%string.
Proof using.
  clear disk path_join readdir path_dirname trim.
  induction str as [|a s [IHlast [n IHn]]]; [split; [discriminate|exists 0; reflexivity]|].
  rewrite stripTrailingBackslashes_cons.
  destruct (stripTrailingBackslashes s) as [|b kept] eqn:E.
  - destruct (Ascii.eqb_spec a "\"%char) as [->|Hne].
    + split; [discriminate|]. exists (S n). cbn in *. rewrite IHn. reflexivity.
    + split; [cbn; congruence|]. exists n. cbn in *. rewrite IHn. reflexivity.
  - split.
    + rewrite lastChar_cons. exact IHlast.
    + exists n. change (String a s = String a (String b kept ++ backslashes n)%string).
      f_equal. exact IHn.
Qed.

Lemma stripTrailingBackslashes_backslashes (n : nat) :
  stripTrailingBackslashes (backslashes n) = EmptyString.
Proof using.
  clear disk path_join readdir path_dirname trim.
  induction n as [|n IH]; [reflexivity|].
  cbn [backslashes]. rewrite stripTrailingBackslashes_cons, IH. reflexivity.
Qed.

Lemma stripTrailingBackslashes_unique (body : string) (n : nat) :
  lastChar body <> Some "\"%char ->
  stripTrailingBackslashes (body ++ backslashes n) = body.
Proof using.
  clear disk path_join readdir path_dirname trim.
  induction body as [|a body IH]; intros Hlast.
  - apply stripTrailingBackslashes_backslashes.
  - cbn [append]. rewrite stripTrailingBackslashes_cons.
    rewrite lastChar_cons in Hlast. destruct body as [|b body'].
    + cbn [append]. rewrite stripTrailingBackslashes_backslashes.
      destruct (Ascii.eqb_spec a "\"%char) as [->|Hne]; [congruence|reflexivity].
    + rewrite (IH Hlast). reflexivity.
Qed.

Lemma stripTrailingBackslashes_subset (x : ascii) (s : string) :
  occursIn x (stripTrailingBackslashes s) -> occursIn x s.
Proof using.
  clear disk path_join readdir path_dirname trim.
  destruct (stripTrailingBackslashes_spec s) as [_ [n Hn]].
  intros H. rewrite Hn. apply occursIn_append. left. exact H.
Qed.

Lemma append_empty_r (s : string) : (s ++ EmptyString)%string = s.
Proof using.
  clear disk path_join readdir path_dirname trim.
  induction s as [|a s IH]; cbn; congruence. Qed.

Lemma stripTrailingBackslashes_fixed (s : string) :
  ~ occursIn "\" s -> stripTrailingBackslashes s = s.
Proof using.
  clear disk path_join readdir path_dirname trim.
  intros Hno. pose proof (stripTrailingBackslashes_unique s 0) as H.
  cbn [backslashes] in H. rewrite append_empty_r in H. apply H.
  intros Hlast. apply Hno, lastChar_occurs, Hlast.
Qed.

Lemma stripDrive_subset (x : ascii) (s : string) :
  occursIn x (stripDrive s) -> occursIn x s.
Proof using.
  clear disk path_join readdir path_dirname trim.
  unfold stripDrive. destruct s as [|a [|b [|c rest]]]; try tauto.
  destruct (isAsciiLetter a && Ascii.eqb b ":" && Ascii.eqb c "\"); [|tauto].
  rewrite !occursIn_cons. tauto.
Qed.

Lemma stripDrive_fixed (s : string) :
  ~ occursIn "\" s -> stripDrive s = s.
Proof using.
  clear disk path_join readdir path_dirname trim.
  unfold stripDrive. destruct s as [|a [|b [|c rest]]]; try reflexivity.
  intros Hno. destruct (Ascii.eqb_spec c "\"%char) as [->|Hne].
  - exfalso. apply Hno. rewrite !occursIn_cons. tauto.
  - rewrite andb_false_r. reflexivity.
Qed.

Lemma lastChar_replaceChar (c d : ascii) (s : string) :
  lastChar (replaceChar c d s)
  = option_map (fun a => if Ascii.eqb a c then d else a) (lastChar s).
Proof using.
  clear disk path_join readdir path_dirname trim.
  induction s as [|a s IH]; [reflexivity|].
  cbn [replaceChar]. rewrite !lastChar_cons.
  destruct s as [|b s']; [reflexivity|]. exact IH.
Qed.

Lemma normalizeSavePath_no_backslash (save_path : string) :
  ~ occursIn "\" (normalizeSavePath save_path).
Proof using.
  clear disk path_join readdir path_dirname trim.
  apply replaceChar_absent. discriminate. Qed.

(** X8.  A normalised save path holds no backslash, and normalising it
    again changes nothing. *)
Theorem normalizeSavePath_stable (save_path : string) :
  ~ occursIn "\" (normalizeSavePath save_path)
  /\ normalizeSavePath (normalizeSavePath save_path) = normalizeSavePath save_path.
Proof using.
  clear disk path_join readdir path_dirname trim.
  pose proof (normalizeSavePath_no_backslash save_path) as Hno.
  split; [exact Hno|].
  set (t := normalizeSavePath save_path) in *.
  unfold normalizeSavePath.
  rewrite (stripDrive_fixed t Hno), (stripTrailingBackslashes_fixed t Hno).
  apply replaceChar_fixed; [discriminate|exact Hno].
Qed.

(** X9.  When the save path holds no forward slash of its own, the
    normalised path does not end with a separator: the trailing backslashes
    are gone before the remaining ones become slashes. *)
Theorem normalizeSavePath_no_trailing_separator (save_path : string) :
  ~ occursIn "/" save_path ->
  lastChar (normalizeSavePath save_path) <> Some "/"%char.
Proof using.
  clear disk path_join readdir path_dirname trim.
  intros Hno. unfold normalizeSavePath. rewrite lastChar_replaceChar.
  destruct (stripTrailingBackslashes_spec (stripDrive save_path)) as [Hlast _].
  destruct (lastChar (stripTrailingBackslashes (stripDrive save_path)))
    as [a|] eqn:E; [|discriminate].
  cbn [option_map]. destruct (Ascii.eqb_spec a "\"%char) as [->|Hne]; [congruence|].
  intros H. inversion H as [Ha]. apply Hno.
  apply stripDrive_subset, stripTrailingBackslashes_subset, lastChar_occurs.
  rewrite E, Ha. reflexivity.
Qed.

(** X10.  Two save paths that differ only in their drive letter are
    searched for under the same normalised path, yet are kept under
    different [pathMap] keys. *)
Theorem drive_letter_changes_key_not_search (d1 d2 : ascii) (rest : string) :
  isAsciiLetter d1 = true -> isAsciiLetter d2 = true ->
  normalizeSavePath (String d1 (String ":" (String "\" rest)))
  = normalizeSavePath (String d2 (String ":" (String "\" rest)))
  /\ (d1 <> d2 ->
      sanitizePath (String d1 (String ":" (String "\" rest)))
      <> sanitizePath (String d2 (String ":" (String "\" rest)))).
Proof using.
  clear disk path_join readdir path_dirname trim.
  intros H1 H2. split.
  - unfold normalizeSavePath, stripDrive. rewrite H1, H2. reflexivity.
  - intros Hne. unfold sanitizePath. cbn [removeChar].
    destruct (Ascii.eqb_spec d1 ":"%char) as [->|_]; [discriminate H1|].
    destruct (Ascii.eqb_spec d2 ":"%char) as [->|_]; [discriminate H2|].
    cbn [Ascii.eqb removeChar replaceChar].
    destruct (Ascii.eqb_spec d1 "\"%char) as [->|_]; [discriminate H1|].
    destruct (Ascii.eqb_spec d2 "\"%char) as [->|_]; [discriminate H2|].
    congruence.
Qed.

(** X11.  The normalised form of [X:\body] followed by any number of
    trailing backslashes is [body] with its backslashes turned into
    slashes: the drive and the trailing run leave no trace. *)
Theorem normalizeSavePath_drive_path (letter : ascii) (body : string) (n : nat) :
  isAsciiLetter letter = true ->
  lastChar body <> Some "\"%char ->
  normalizeSavePath (String letter (String ":" (String "\" (body ++ backslashes n))))
  = replaceChar "\" "/" body.
Proof using.
  clear disk path_join readdir path_dirname trim.
  intros Hletter Hlast. unfold normalizeSavePath, stripDrive.
  rewrite Hletter. cbn [Ascii.eqb andb Bool.eqb].
  rewrite (stripTrailingBackslashes_unique body n Hlast). reflexivity.
Qed.

(** ** Suffixes *)

Lemma length_append (s t : string) :
  String.length (s ++ t) = String.length s + String.length t.
Proof using.
  clear disk path_join readdir path_dirname trim.
  induction s as [|a s IH]; cbn; congruence. Qed.

Lemma substring_whole (t : string) : substring 0 (String.length t) t = t.
Proof using.
  clear disk path_join readdir path_dirname trim.
  induction t as [|a t IH]; cbn; congruence. Qed.

Lemma substring_after (p t : string) :
  substring (String.length p) (String.length t) (p ++ t) = t.
Proof using.
  clear disk path_join readdir path_dirname trim.
  induction p as [|a p IH]; cbn; [apply substring_whole|exact IH]. Qed.

Lemma substring_split (s : string) :
  forall n : nat, n <= String.length s ->
  s = (substring 0 n s ++ substring n (String.length s - n) s)%string.
Proof using.
  clear disk path_join readdir path_dirname trim.
  induction s as [|a s IH]; intros n Hn.
  - destruct n; reflexivity.
  - destruct n as [|n].
    + cbn [substring append]. rewrite Nat.sub_0_r.
      change (String a s = substring 0 (String.length (String a s)) (String a s)).
      symmetry. apply substring_whole.
    + cbn [substring append String.length Nat.sub]. f_equal. apply IH.
      cbn in Hn. lia.
Qed.

Lemma endsWith_spec (str suffix : string) :
  endsWith str suffix = true <-> exists stem : string, str = (stem ++ suffix)%string.
Proof using.
  clear disk path_join readdir path_dirname trim.
  unfold endsWith. rewrite andb_true_iff, Nat.leb_le, String.eqb_eq. split.
  - intros [Hle Hsub].
    exists (substring 0 (String.length str - String.length suffix) str).
    pose proof (@substring_split str (String.length str - String.length suffix)) as Hs.
    replace (String.length str - (String.length str - String.length suffix))
      with (String.length suffix) in Hs by lia.
    rewrite Hsub in Hs. apply Hs. lia.
  - intros [stem ->]. rewrite length_append. split; [lia|].
    replace (String.length stem + String.length suffix - String.length suffix)
      with (String.length stem) by lia.
    apply substring_after.
Qed.

Lemma substring_before (stem suffix : string) :
  substring 0 (String.length stem) (stem ++ suffix) = stem.
Proof using.
  clear disk path_join readdir path_dirname trim.
  induction stem as [|a stem IH]; cbn.
  - destruct suffix; reflexivity.
  - rewrite IH. reflexivity.
Qed.

Lemma replaceSuffix_stem (suffix replacement stem : string) :
  replaceSuffix suffix replacement (stem ++ suffix) = (stem ++ replacement)%string.
Proof using.
  clear disk path_join readdir path_dirname trim.
  unfold replaceSuffix.
  rewrite (proj2 (endsWith_spec (stem ++ suffix) suffix)) by (exists stem; reflexivity).
  rewrite length_append.
  replace (String.length stem + String.length suffix - String.length suffix)
    with (String.length stem) by lia.
  rewrite substring_before. reflexivity.
Qed.

(** X17.  The two suffix rewrites of the driver are inverse to each other
    on the files they are applied to: a resume file name is mapped to the
    torrent of the same stem and back, a torrent file name to the resume
    file of the same stem and back; a name without the suffix is left
    unchanged. *)
Theorem torrent_and_fastresume_names_pair_up (file : string) :
  (endsWith file ".fastresume" = true ->
   endsWith (torrentOfFastResume file) ".torrent" = true
   /\ fastResumeOfTorrent (torrentOfFastResume file) = file)
  /\ (endsWith file ".torrent" = true ->
      endsWith (fastResumeOfTorrent file) ".fastresume" = true
      /\ torrentOfFastResume (fastResumeOfTorrent file) = file)
  /\ (endsWith file ".fastresume" = false -> torrentOfFastResume file = file)
  /\ (endsWith file ".torrent" = false -> fastResumeOfTorrent file = file).
Proof using.
  clear disk path_join readdir path_dirname trim.
  unfold torrentOfFastResume, fastResumeOfTorrent.
  split; [|split; [|split]].
  - intros H. apply endsWith_spec in H. destruct H as (stem & ->).
    rewrite !replaceSuffix_stem. split; [|reflexivity].
    apply endsWith_spec. exists stem. reflexivity.
  - intros H. apply endsWith_spec in H. destruct H as (stem & ->).
    rewrite !replaceSuffix_stem. split; [|reflexivity].
    apply endsWith_spec. exists stem. reflexivity.
  - intros H. unfold replaceSuffix. rewrite H. reflexivity.
  - intros H. unfold replaceSuffix. rewrite H. reflexivity.
Qed.

(** * Beyond the claims: the properties *)

(** X1.  [findCorrectTorrentPath] returns a result exactly when some search
    hit is usable, and otherwise raises the [TypeError] of the empty
    reduction; nothing else is ever raised. *)
Theorem findCorrectTorrentPath_outcome
        (torrentData : TorrentData.t) (filePaths : list string) :
  let torrentName := Info.name (TorrentData.info torrentData) in
  let isSingleFile :=
    match Info.files (TorrentData.info torrentData) with
    | Some _ => false
    | None => true
    end in
  let expectedFiles := getExpectedFiles torrentData in
  ((exists basePath,
       In basePath filePaths
       /\ usable torrentName isSingleFile expectedFiles basePath)
   /\ exists best, findCorrectTorrentPath torrentData filePaths = Normal best)
  \/ ((forall basePath,
          In basePath filePaths ->
          ~ usable torrentName isSingleFile expectedFiles basePath)
      /\ findCorrectTorrentPath torrentData filePaths = Throw TypeError_reduce_empty).
Proof.
  intros torrentName isSingleFile expectedFiles.
  destruct (@best_candidate
              (fun _ => exists basePath,
                   In basePath filePaths
                   /\ usable torrentName isSingleFile expectedFiles basePath)
              torrentData filePaths)
    as (candidates & Hrun & Hall & Hresult).
  - intros basePath filePath ef stat st dbg Hin Hmode Hbase Hwhere Hef Hstat.
    exists basePath. split; [exact Hin|]. exists st. split; [exact Hbase|].
    unfold isSingleFile. rewrite Hmode.
    destruct Hwhere as [[_ Hkind]|[-> Hkind]]; [left; exact Hkind|right].
    split; [exact Hkind|]. unfold existsSync.
    unfold torrentName. rewrite Hstat. reflexivity.
  - intros basePath root st r dbg Hin Hmode Hbase Hkind Hroot Hv Hpos.
    exists basePath. split; [exact Hin|]. exists st. split; [exact Hbase|].
    unfold isSingleFile.
    destruct (Info.files (TorrentData.info torrentData));
      [|contradiction Hmode; reflexivity].
    split; [exact Hkind|].
    destruct (verdict_rejects _ _ Hv Hpos) as (Hdir & f & Hf & Hexists).
    exists root, f. repeat split; assumption.
  - destruct candidates as [|c cs].
    + right. split; [|exact Hresult].
      intros basePath Hin Huse.
      destruct (collectCandidates_hit torrentData filePaths) as (cs & Hrun' & Hne).
      * exists basePath. split; assumption.
      * rewrite Hrun in Hrun'. inversion Hrun' as [Hcs]. apply Hne. symmetry. exact Hcs.
    + left. destruct Hresult as (best & Hbest & _).
      inversion Hall as [|? ? Hc _]. split; [exact Hc|]. exists best. exact Hbest.
Qed.

(** X2.  The path of a returned result is one of the search hits, exists on
    disk, and is a directory when the torrent is multi-file. *)
Theorem returned_path_is_a_search_hit
        (torrentData : TorrentData.t) (filePaths : list string)
        (best : PathMatchResult.t) :
  findCorrectTorrentPath torrentData filePaths = Normal best ->
  In (PathMatchResult.basePath best) filePaths
  /\ exists st,
       disk (PathMatchResult.basePath best) = Some st
       /\ (Info.files (TorrentData.info torrentData) <> None ->
           Stats.kind st = Directory).
Proof.
  intros Hbest.
  destruct (candidate_facts torrentData filePaths)
    as (candidates & _ & Hall & Hresult).
  destruct candidates as [|c cs]; [rewrite Hbest in Hresult; discriminate|].
  destruct Hresult as (best' & Hbest' & Hin).
  rewrite Hbest in Hbest'. inversion Hbest'. subst best'.
  rewrite Forall_forall in Hall. destruct (Hall best Hin) as (H1 & H2 & _).
  split; assumption.
Qed.

(** X3.  In a returned result the counters agree with the evidence:
    [matches] has [totalFiles] entries, one per expected file,
    [existingFiles] counts the matches that exist, and at least one
    exists. *)
Theorem returned_counters_agree_with_evidence
        (torrentData : TorrentData.t) (filePaths : list string)
        (best : PathMatchResult.t) :
  findCorrectTorrentPath torrentData filePaths = Normal best ->
  consistent best
  /\ PathMatchResult.totalFiles best = List.length (getExpectedFiles torrentData).
Proof.
  intros Hbest.
  destruct (candidate_facts torrentData filePaths)
    as (candidates & _ & Hall & Hresult).
  destruct candidates as [|c cs]; [rewrite Hbest in Hresult; discriminate|].
  destruct Hresult as (best' & Hbest' & Hin).
  rewrite Hbest in Hbest'. inversion Hbest'. subst best'.
  rewrite Forall_forall in Hall. destruct (Hall best Hin) as (_ & _ & H3 & H4 & _).
  split; assumption.
Qed.

(** X4.  The confidence of a returned result can be recomputed from the
    evidence it carries: from the sizes of its only match for a single-file
    torrent, from its counters and its matches for a multi-file torrent. *)
Theorem returned_confidence_follows_from_evidence
        (torrentData : TorrentData.t) (filePaths : list string)
        (best : PathMatchResult.t) :
  findCorrectTorrentPath torrentData filePaths = Normal best ->
  match Info.files (TorrentData.info torrentData) with
  | None =>
      exists m,
        PathMatchResult.matches best = [m]
        /\ PathMatchResult.confidence best
           = grade (FileMatch.actualSize m) (FileMatch.expectedSize m)
  | Some _ =>
      PathMatchResult.confidence best
      = score (PathMatchResult.existingFiles best)
              (tally FileMatch.sizeMatch (PathMatchResult.matches best))
              (PathMatchResult.totalFiles best)
  end.
Proof.
  intros Hbest.
  destruct (candidate_facts torrentData filePaths)
    as (candidates & _ & Hall & Hresult).
  destruct candidates as [|c cs]; [rewrite Hbest in Hresult; discriminate|].
  destruct Hresult as (best' & Hbest' & Hin).
  rewrite Hbest in Hbest'. inversion Hbest'. subst best'.
  rewrite Forall_forall in Hall. destruct (Hall best Hin) as (_ & _ & _ & _ & H5).
  exact H5.
Qed.

(** X5.  A torrent whose [files] list is present but empty is never
    located: whatever the search hits and the disk, the call raises. *)
Theorem empty_file_list_is_never_located
        (torrentData : TorrentData.t) (filePaths : list string) :
  Info.files (TorrentData.info torrentData) = Some [] ->
  findCorrectTorrentPath torrentData filePaths = Throw TypeError_reduce_empty.
Proof.
  intros Hempty.
  destruct (@best_candidate (fun _ => False) torrentData filePaths)
    as (candidates & _ & Hall & Hresult).
  - intros basePath filePath ef stat st dbg _ Hmode. congruence.
  - intros basePath root st r dbg _ _ _ _ _ Hv Hpos.
    pose proof (verdict_positive _ _ Hv Hpos) as Hone.
    unfold getExpectedFiles in Hone. rewrite Hempty in Hone.
    cbn in Hone. lia.
  - destruct candidates as [|c cs]; [exact Hresult|].
    inversion Hall as [|? ? Hfalse _]. contradiction Hfalse.
Qed.

(** What [findCorrectTorrentPath] does with the search hits: it returns a
    result at one of them when some hit is usable, and throws when none
    is. *)
Lemma located_or_thrown (torrentData : TorrentData.t) (filePaths : list string) :
  let torrentName := Info.name (TorrentData.info torrentData) in
  let isSingleFile :=
    match Info.files (TorrentData.info torrentData) with
    | Some _ => false
    | None => true
    end in
  let expectedFiles := getExpectedFiles torrentData in
  match findCorrectTorrentPath torrentData filePaths with
  | Normal best =>
      In (PathMatchResult.basePath best) filePaths
      /\ exists hit,
           In hit filePaths /\ usable torrentName isSingleFile expectedFiles hit
  | Throw e =>
      e = TypeError_reduce_empty
      /\ forall hit,
           In hit filePaths -> ~ usable torrentName isSingleFile expectedFiles hit
  end.
Proof.
  intros torrentName isSingleFile expectedFiles.
  destruct (@best_candidate
              (fun c => In (PathMatchResult.basePath c) filePaths
                        /\ exists hit,
                             In hit filePaths
                             /\ usable torrentName isSingleFile expectedFiles hit)
              torrentData filePaths)
    as (candidates & Hrun & Hall & Hresult).
  - intros basePath filePath ef stat st dbg Hin Hmode Hbase Hwhere Hef Hstat.
    split; [exact Hin|].
    exists basePath. split; [exact Hin|]. exists st. split; [exact Hbase|].
    unfold isSingleFile. rewrite Hmode.
    destruct Hwhere as [[_ Hkind]|[-> Hkind]]; [left; exact Hkind|right].
    split; [exact Hkind|]. unfold existsSync.
    unfold torrentName. rewrite Hstat. reflexivity.
  - intros basePath root st r dbg Hin Hmode Hbase Hkind Hroot Hv Hpos.
    split; [exact Hin|].
    exists basePath. split; [exact Hin|]. exists st. split; [exact Hbase|].
    unfold isSingleFile.
    destruct (Info.files (TorrentData.info torrentData));
      [|contradiction Hmode; reflexivity].
    split; [exact Hkind|].
    destruct (verdict_rejects _ _ Hv Hpos) as (Hdir & f & Hf & Hexists).
    exists root, f. repeat split; assumption.
  - destruct candidates as [|c cs].
    + rewrite Hresult. split; [reflexivity|].
      intros hit Hin Huse.
      destruct (collectCandidates_hit torrentData filePaths) as (cs & Hrun' & Hne).
      * exists hit. split; assumption.
      * rewrite Hrun in Hrun'. inversion Hrun' as [Hcs]. apply Hne. symmetry. exact Hcs.
    + destruct Hresult as (best & Hbest & Hin). rewrite Hbest.
      rewrite Forall_forall in Hall. exact (Hall best Hin).
Qed.

(** X12.  How the driver settles one save path.  It settles on a path only
    if that path is one of the search hits: the only hit, taken without
    any check, or the winner among several hits of which at least one is
    usable.  Otherwise the process ends with status 1: by [process.exit]
    when the search returned nothing, and by the uncaught [TypeError] of
    [findCorrectTorrentPath] when it returned several hits none of which
    is usable.  The status alone does not tell the two apart. *)
Theorem resolveLinuxPath_outcomes
        (torrent : TorrentData.t) (linuxPaths : list string) :
  let torrentName := Info.name (TorrentData.info torrent) in
  let isSingleFile :=
    match Info.files (TorrentData.info torrent) with
    | Some _ => false
    | None => true
    end in
  let expectedFiles := getExpectedFiles torrent in
  match resolveLinuxPath torrent linuxPaths with
  | Resolved linuxPath =>
      In linuxPath linuxPaths
      /\ (linuxPaths = [linuxPath]
          \/ 2 <= List.length linuxPaths
             /\ exists hit,
                  In hit linuxPaths
                  /\ usable torrentName isSingleFile expectedFiles hit)
  | Ended status uncaught =>
      status = 1%Z
      /\ (linuxPaths = [] /\ uncaught = None
          \/ 2 <= List.length linuxPaths
             /\ uncaught = Some TypeError_reduce_empty
             /\ forall hit,
                  In hit linuxPaths
                  -> ~ usable torrentName isSingleFile expectedFiles hit)
  end.
Proof.
  intros torrentName isSingleFile expectedFiles.
  destruct linuxPaths as [|first [|second rest]]; cbn [resolveLinuxPath].
  - split; [reflexivity|]. left. split; reflexivity.
  - split; [left; reflexivity|]. left. reflexivity.
  - pose proof (located_or_thrown torrent (first :: second :: rest)) as Hcases.
    cbv zeta in Hcases.
    destruct (findCorrectTorrentPath torrent (first :: second :: rest)) as [best|e].
    + destruct Hcases as [Hin Hhit]. split; [exact Hin|].
      right. split; [cbn; lia|exact Hhit].
    + destruct Hcases as [-> Hnone]. split; [reflexivity|].
      right. split; [cbn; lia|]. split; [reflexivity|exact Hnone].
Qed.

(** ** [findBTBackup] *)

Lemma isQBTFile_spec (file : string) :
  isQBTFile file = true
  <-> exists stem : string,
        file = (stem ++ ".torrent")%string
        \/ file = (stem ++ ".fastresume")%string
        \/ file = (stem ++ ".resume")%string.
Proof using.
  clear disk path_join readdir path_dirname trim.
  unfold isQBTFile. rewrite !orb_true_iff, !endsWith_spec. split.
  - intros [[[stem H]|[stem H]]|[stem H]]; exists stem; tauto.
  - intros [stem [H|[H|H]]]; [left; left|left; right|right]; exists stem; exact H.
Qed.

(** The test one iteration of the loop applies to a path. *)
Lemma qualifies_iff (btBackupPath : string) :
  qualifies btBackupPath
  <-> match disk btBackupPath with
      | Some stat =>
          Stats.isDirectory stat
          && (access (path_join (path_dirname btBackupPath) "qBittorrent.conf")
              || match readdir btBackupPath with
                 | Some files => existsb isQBTFile files
                 | None => false
                 end) = true
      | None => False
      end.
Proof using disk path_join readdir path_dirname.
  clear trim.
  unfold qualifies, access. split.
  - intros (stat & Hstat & Hdir & Hwhy). rewrite Hstat, Hdir. cbn [andb].
    apply orb_true_iff. destruct Hwhy as [Hconf|(files & file & stem & Hls & Hin & Hname)].
    + left. exact Hconf.
    + right. rewrite Hls. apply existsb_exists. exists file. split; [exact Hin|].
      apply isQBTFile_spec. exists stem. exact Hname.
  - destruct (disk btBackupPath) as [stat|]; [|intros []].
    intros H. apply andb_true_iff in H. destruct H as [Hdir H].
    exists stat. split; [reflexivity|]. split; [exact Hdir|].
    apply orb_true_iff in H. destruct H as [Hconf|Hls]; [left; exact Hconf|right].
    destruct (readdir btBackupPath) as [files|]; [|discriminate].
    apply existsb_exists in Hls. destruct Hls as (file & Hin & Hq).
    apply isQBTFile_spec in Hq. destruct Hq as (stem & Hname).
    exists files, file, stem. repeat split; assumption.
Qed.

Lemma searchBTBackup_first (btBackupPaths : list string) :
  match searchBTBackup btBackupPaths with
  | Some found =>
      exists before after,
        btBackupPaths = before ++ found :: after
        /\ qualifies found
        /\ Forall (fun skipped => ~ qualifies skipped) before
  | None => Forall (fun skipped => ~ qualifies skipped) btBackupPaths
  end.
Proof.
  induction btBackupPaths as [|p rest IH]; [constructor|].
  cbn [searchBTBackup]. pose proof (qualifies_iff p) as Hq.
  assert (Hskip : ~ qualifies p ->
                  match searchBTBackup rest with
                  | Some found =>
                      exists before after,
                        p :: rest = before ++ found :: after
                        /\ qualifies found
                        /\ Forall (fun skipped => ~ qualifies skipped) before
                  | None => Forall (fun skipped => ~ qualifies skipped) (p :: rest)
                  end).
  { intros Hno. destruct (searchBTBackup rest) as [found|].
    - destruct IH as (before & after & -> & Hfound & Hbefore).
      exists (p :: before), after. split; [reflexivity|]. split; [exact Hfound|].
      constructor; assumption.
    - constructor; assumption. }
  assert (Htake : qualifies p ->
                  exists before after,
                    p :: rest = before ++ p :: after
                    /\ qualifies p
                    /\ Forall (fun skipped => ~ qualifies skipped) before).
  { intros Hyes. exists [], rest. split; [reflexivity|]. split; [exact Hyes|constructor]. }
  destruct (disk p) as [stat|]; [|apply Hskip; rewrite Hq; tauto].
  destruct (Stats.isDirectory stat); cbn [negb andb] in *;
    [|apply Hskip; rewrite Hq; discriminate].
  destruct (access (path_join (path_dirname p) "qBittorrent.conf")); cbn [orb] in *;
    [apply Htake; rewrite Hq; reflexivity|].
  destruct (readdir p) as [files|]; [|apply Hskip; rewrite Hq; discriminate].
  destruct (existsb isQBTFile files);
    [apply Htake; rewrite Hq; reflexivity|apply Hskip; rewrite Hq; discriminate].
Qed.

(** X13.  [findBTBackup] returns the first line of the command output that
    names a directory lying next to a [qBittorrent.conf] or holding a
    torrent or resume file; it returns [null] exactly when the command
    failed or no line qualifies.  A line whose stat or listing fails is
    skipped. *)
Theorem findBTBackup_first_qualifying (found : option string) :
  match findBTBackup found with
  | Some btBackupPath =>
      exists stdout before after,
        found = Some stdout
        /\ filter (fun line => negb (String.eqb line "")) (splitLines (trim stdout))
           = before ++ btBackupPath :: after
        /\ qualifies btBackupPath
        /\ Forall (fun skipped => ~ qualifies skipped) before
  | None =>
      found = None
      \/ exists stdout,
           found = Some stdout
           /\ Forall (fun line => ~ qualifies line)
                     (filter (fun line => negb (String.eqb line ""))
                             (splitLines (trim stdout)))
  end.
Proof.
  destruct found as [stdout|]; [|left; reflexivity].
  cbn [findBTBackup]. cbv zeta.
  destruct (String.eqb_spec (trim stdout) "") as [Hempty|_].
  - right. exists stdout. split; [reflexivity|]. rewrite Hempty. constructor.
  - pose proof (searchBTBackup_first
                  (filter (fun line => negb (String.eqb line ""))
                          (splitLines (trim stdout)))) as Hsearch.
    destruct (searchBTBackup _) as [p|].
    + destruct Hsearch as (before & after & Heq & Hq & Hbefore).
      exists stdout, before, after. repeat split; assumption.
    + right. exists stdout. split; [reflexivity|exact Hsearch].
Qed.

(** ** Order of the scores *)

(** X14.  With the same files present, more exact size matches never lower
    the multi-file confidence. *)
Theorem score_monotone_in_perfect_matches (existing perfect perfect' total : nat) :
  perfect <= perfect' -> perfect' <= existing -> existing <= total ->
  (score existing perfect total <= score existing perfect' total)%Q.
Proof.
  intros Hpp Hpe Het. unfold score.
  destruct (0 <? existing) eqn:E; [|apply Qle_refl].
  apply Nat.ltb_lt in E. unfold perfectMatchRatio.
  assert (E' : (0 <? existing) = true) by (apply Nat.ltb_lt; exact E).
  rewrite E'.
  assert (Hratio : (inject_Z (Z.of_nat perfect) / inject_Z (Z.of_nat existing)
                    <= inject_Z (Z.of_nat perfect') / inject_Z (Z.of_nat existing))%Q).
  { unfold Qdiv. apply Qmult_le_compat_r.
    - rewrite <- Zle_Qle. lia.
    - apply Qlt_le_weak, Qinv_lt_0_compat, inject_Z_pos. lia. }
  set (e := existenceRatio existing total).
  set (p := (inject_Z (Z.of_nat perfect) / inject_Z (Z.of_nat existing))%Q) in *.
  set (p' := (inject_Z (Z.of_nat perfect') / inject_Z (Z.of_nat existing))%Q) in *.
  destruct (Qgtb e (8 # 10)), (Qgtb e (5 # 10));
    try apply Q.max_le_compat_r; lra.
Qed.

(** X15.  The single-file confidence ranks the evidence: an exact size is
    never beaten, any non-empty smaller file beats any other mismatch, and
    of two non-empty smaller files the larger one never scores lower; it
    scores higher when the expected size is below 10^15 bytes. *)
Theorem grade_ranks_the_evidence (a b expectedSize : Z) :
  (grade b expectedSize <= grade expectedSize expectedSize)%Q
  /\ ((0 < a < expectedSize)%Z -> ~ (0 < b < expectedSize)%Z -> b <> expectedSize ->
      (grade b expectedSize < grade a expectedSize)%Q)
  /\ ((0 < a < b)%Z -> (b < expectedSize)%Z ->
      (grade a expectedSize <= grade b expectedSize)%Q
      /\ ((expectedSize < 10 ^ 15)%Z ->
          (grade a expectedSize < grade b expectedSize)%Q)).
Proof.
  assert (Hpartial : forall x, (0 < x < expectedSize)%Z ->
             grade x expectedSize
             = ((5 # 10) + inject_Z x / inject_Z expectedSize * (3 # 10))%Q).
  { intros x [Hx0 Hxe]. unfold grade.
    assert (Hne : (x =? expectedSize)%Z = false) by (apply Z.eqb_neq; lia).
    assert (Hin : ((x <? expectedSize)%Z && (0 <? x)%Z) = true)
      by (apply andb_true_iff; split; apply Z.ltb_lt; lia).
    rewrite Hne, Hin. reflexivity. }
  split; [|split].
  - unfold grade at 2. rewrite Z.eqb_refl. apply grade_bounds.
  - intros Ha Hb Hne. rewrite (Hpartial a Ha).
    pose proof (ratio_strict_bounds Ha) as Hr.
    unfold grade. apply Z.eqb_neq in Hne. rewrite Hne.
    destruct ((b <? expectedSize)%Z && (0 <? b)%Z) eqn:Hin; [|lra].
    apply andb_true_iff in Hin. destruct Hin as [H1 H2].
    apply Z.ltb_lt in H1, H2. exfalso. apply Hb. lia.
  - intros [Ha0 Hab] Hbe.
    rewrite (Hpartial a), (Hpartial b) by lia.
    assert (Hlt : (inject_Z a / inject_Z expectedSize
                   < inject_Z b / inject_Z expectedSize)%Q).
    { unfold Qdiv. apply Qmult_lt_compat_r.
      - apply Qinv_lt_0_compat, inject_Z_pos. lia.
      - rewrite <- Zlt_Qlt. exact Hab. }
    split; [lra|]. intros _. lra.
Qed.

Lemma Qgtb_false (a b : Q) : (a <= b)%Q -> Qgtb a b = false.
Proof.
  intros H. unfold Qgtb. destruct (a ?= b)%Q eqn:E; try reflexivity.
  apply Qgt_alt in E. exfalso. apply (Qlt_irrefl b). eapply Qlt_le_trans; eassumption.
Qed.

(** Below the floor and the bonus the score is the weighted sum. *)
Lemma score_plain (existing perfect total : nat) :
  0 < existing -> 2 * existing <= total ->
  (score existing perfect total
   == inject_Z (Z.of_nat existing) / inject_Z (Z.of_nat total) * (7 # 10)
      + inject_Z (Z.of_nat perfect) / inject_Z (Z.of_nat existing) * (3 # 10))%Q.
Proof.
  intros Hpos Hhalf. unfold score, perfectMatchRatio.
  apply Nat.ltb_lt in Hpos. rewrite Hpos. apply Nat.ltb_lt in Hpos.
  assert (He : (existenceRatio existing total <= 5 # 10)%Q).
  { unfold existenceRatio. apply Qle_shift_div_r.
    - apply inject_Z_pos. lia.
    - assert (Hq : (inject_Z (2 * Z.of_nat existing) <= inject_Z (Z.of_nat total))%Q)
        by (rewrite <- Zle_Qle; lia).
      rewrite inject_Z_mult in Hq. change (inject_Z 2) with 2%Q in Hq. lra. }
  rewrite (Qgtb_false He).
  rewrite Qgtb_false by lra.
  reflexivity.
Qed.

(** X16.  The multi-file confidence is not monotone in the files found:
    for a torrent of at most 10000 files of which at most half exist, one
    more file of the wrong size lowers the confidence whenever
    7 * existing * (existing + 1) is below 3 * perfect * total. *)
Theorem extra_mismatched_file_can_lower_score (existing perfect total : nat) :
  (Z.of_nat total <= 10000)%Z ->
  0 < existing -> 2 * (existing + 1) <= total ->
  7 * existing * (existing + 1) < 3 * perfect * total ->
  (score (existing + 1) perfect total < score existing perfect total)%Q.
Proof.
  intros _ Hpos Hhalf Hgain.
  rewrite !score_plain by lia.
  assert (Hx : (0 < inject_Z (Z.of_nat existing))%Q) by (apply inject_Z_pos; lia).
  assert (Ht : (0 < inject_Z (Z.of_nat total))%Q) by (apply inject_Z_pos; lia).
  assert (Hs : (inject_Z (Z.of_nat (existing + 1)) == inject_Z (Z.of_nat existing) + 1)%Q).
  { rewrite Nat2Z.inj_add, inject_Z_plus. reflexivity. }
  assert (Hg : (7 * inject_Z (Z.of_nat existing) * (inject_Z (Z.of_nat existing) + 1)
                < 3 * inject_Z (Z.of_nat perfect) * inject_Z (Z.of_nat total))%Q).
  { rewrite <- Hs. 
    change 7%Q with (inject_Z 7). change 3%Q with (inject_Z 3).
    rewrite <- !inject_Z_mult, <- Zlt_Qlt. lia. }
  rewrite Hs.
  set (x := inject_Z (Z.of_nat existing)) in *.
  set (t := inject_Z (Z.of_nat total)) in *.
  set (p := inject_Z (Z.of_nat perfect)) in *.
  apply Qlt_minus_iff.
  assert (Heq : (x / t * (7 # 10) + p / x * (3 # 10)
                 + - ((x + 1) / t * (7 # 10) + p / (x + 1) * (3 # 10))
                 == (3 * p * t - 7 * x * (x + 1)) / (10 * t * x * (x + 1)))%Q).
  { field. repeat split; lra. }
  rewrite Heq. apply Qlt_shift_div_l.
  - assert (0 < t * x)%Q by (apply Qmult_lt_0_compat; assumption).
    assert (0 < (t * x) * (x + 1))%Q by (apply Qmult_lt_0_compat; [assumption|lra]).
    lra.
  - lra.
Qed.

End Reconciliation.

(** C9.  The manifest built from a descriptor: with [info.files] present,
    one entry per file in descriptor order, its path the segments joined
    with a slash and its size the file's length; with [info.files] absent,
    exactly one entry, its path [info.name] and its size [info.length], or
    0 when [info.length] is absent. *)
Theorem getExpectedFiles_entries (torrentData : TorrentData.t) :
  match Info.files (TorrentData.info torrentData) with
  | Some files =>
      Forall2 (fun file entry =>
                 ExpectedFile.path entry = String.concat "/" (TorrentFile.path file)
                 /\ ExpectedFile.size entry = TorrentFile.length file)
              files (getExpectedFiles torrentData)
  | None =>
      exists entry : ExpectedFile.t,
        getExpectedFiles torrentData = [entry]
        /\ ExpectedFile.path entry = Info.name (TorrentData.info torrentData)
        /\ ExpectedFile.size entry
           = match Info.length (TorrentData.info torrentData) with
             | Some length => length
             | None => 0%Z
             end
  end.
Proof.
  unfold getExpectedFiles.
  destruct (Info.files (TorrentData.info torrentData)) as [files|].
  - induction files as [|file files IH]; constructor.
    + split; reflexivity.
    + exact IH.
  - eexists. repeat split.
Qed.

(** * The claims at concrete inputs *)

(** The confidence range on the 400-byte copy of a 1000-byte movie and on
    the complete album. *)
Lemma confidence_range_without_clamp_witness :
  (exists r,
      fst (validateSingleFile Sample.disk "/mnt/old/movie.mkv"
                              (Some Sample.movieFile) [])
      = Normal (Some r)
      /\ (0 <= SingleResult.confidence r <= 1)%Q)
  /\ (exists r,
        fst (validateMultiFileStructure Sample.disk Sample.join "/mnt/data/album"
                                        (getExpectedFiles Sample.album) [])
        = Normal (Some r)
        /\ (0 <= PathMatchResult.confidence r <= 11 # 10)%Q).
Proof.
  split; eexists; (split; [reflexivity|]).
  - apply (proj1 (confidence_range_without_clamp Sample.disk Sample.join)
                 "/mnt/old/movie.mkv"%string (Some Sample.movieFile) []).
    reflexivity.
  - apply (proj2 (confidence_range_without_clamp Sample.disk Sample.join)
                 "/mnt/data/album"%string (getExpectedFiles Sample.album) []).
    reflexivity.
Defined.

(** C1 as stated fails: with both album files present at their expected
    sizes the multi-file scorer returns 1.1. *)
Lemma confidence_exceeds_one :
  ~ ((forall disk filePath expectedFile debug r,
         fst (validateSingleFile disk filePath expectedFile debug) = Normal (Some r) ->
         (0 <= SingleResult.confidence r <= 1)%Q)
     /\ (forall disk path_join basePath expectedFiles debug r,
           fst (validateMultiFileStructure disk path_join basePath expectedFiles debug)
           = Normal (Some r) ->
           (0 <= PathMatchResult.confidence r <= 1)%Q)).
Proof.
  intros [_ Hmulti].
  destruct (Hmulti Sample.disk Sample.join "/mnt/data/album"%string
                   (getExpectedFiles Sample.album) [] _ eq_refl) as [_ Hle].
  vm_compute in Hle. apply Hle. reflexivity.
Qed.

(** The album torrent against two existing directories that hold none of
    its files: the call raises. *)
Lemma no_candidate_raises_witness :
  findCorrectTorrentPath Sample.disk Sample.join Sample.album
                         ["/mnt/old"; "/mnt/data/season"]%string
  = Throw TypeError_reduce_empty.
Proof.
  apply no_candidate_raises. reflexivity.
Defined.

(** The multi-file formula on the season torrent: 2 of 12 files exist, 1 of
    them with the right size, giving (2/12)*0.7 + (1/2)*0.3. *)
Lemma multi_file_confidence_formula_witness :
  exists r,
    fst (validateMultiFileStructure Sample.disk Sample.join "/mnt/data/season"
                                    Sample.seasonFiles [])
    = Normal (Some r)
    /\ (PathMatchResult.confidence r == 4 # 15)%Q.
Proof.
  destruct (fst (validateMultiFileStructure Sample.disk Sample.join
                   "/mnt/data/season" Sample.seasonFiles []))
    as [[r|]|e] eqn:Hrun;
    [|vm_compute in Hrun; discriminate Hrun..].
  exists r. split; [reflexivity|].
  destruct (multi_file_confidence_formula _ _ _ _ _ Hrun) as [Hformula _].
  vm_compute in Hrun. injection Hrun as <-.
  destruct Hformula as (weighted & boosted & Hw & _ & Hb & _ & Hc);
    [vm_compute; lia|].
  rewrite Hc, Hb, Hw by (vm_compute; discriminate).
  vm_compute. reflexivity.
Defined.

(** The single-file cases on the 400-byte copy of a 1000-byte movie:
    0.5 + 0.4 * 0.3. *)
Lemma single_file_confidence_cases_witness :
  exists r,
    fst (validateSingleFile Sample.disk "/mnt/old/movie.mkv"
                            (Some Sample.movieFile) [])
    = Normal (Some r)
    /\ (SingleResult.confidence r == 62 # 100)%Q
    /\ (5 # 10 < SingleResult.confidence r < 8 # 10)%Q.
Proof.
  destruct (single_file_confidence_cases
              Sample.disk "/mnt/old/movie.mkv"%string Sample.movieFile [])
    as (r & Hr & _ & Hpartial & _).
  exists r. split; [exact Hr|].
  destruct Hpartial as (Hc & _ & Hstrict); [vm_compute; split; reflexivity|].
  split; [rewrite Hc; vm_compute; reflexivity|].
  apply Hstrict. vm_compute. reflexivity.
Defined.

(** C4 as stated fails on the doubles of the source: for a file of 1 byte
    where 6 * 10^15 bytes are expected the incomplete-file branch is taken
    and the ratio is so small that [0.5 + completionRatio * 0.3] rounds to
    0.5 itself, which is not strictly above 0.5. *)
#[warnings="-inexact-float"]
Lemma incomplete_file_confidence_reaches_half :
  confidenceBinary64 1%float 6000000000000000%float = 0.5%float
  /\ ~ (forall actualSize expectedSize : PrimFloat.float,
          PrimFloat.ltb 0%float actualSize = true ->
          PrimFloat.ltb actualSize expectedSize = true ->
          PrimFloat.ltb 0.5%float (confidenceBinary64 actualSize expectedSize) = true
          /\ PrimFloat.ltb (confidenceBinary64 actualSize expectedSize) 0.8%float = true).
Proof.
  split; [vm_compute; reflexivity|].
  intros Hrange.
  destruct (Hrange 1%float 6000000000000000%float eq_refl eq_refl) as [Hlow _].
  vm_compute in Hlow. discriminate Hlow.
Qed.

(** Just below the bound of 10^15 bytes the doubles stay strictly inside
    the range: at the smallest and at the largest incomplete size. *)
#[warnings="-inexact-float"]
Example incomplete_file_confidence_below_bound :
  PrimFloat.ltb 0.5%float (confidenceBinary64 1%float 999999999999999%float) = true
  /\ PrimFloat.ltb (confidenceBinary64 999999999999998%float 999999999999999%float)
                   0.8%float = true.
Proof.
  split; vm_compute; reflexivity.
Qed.

(** The reduction on confidences 0.65, 1, 1, 0.2: the first of the two
    candidates at 1 is returned. *)
Lemma selects_first_maximal_candidate_witness :
  exists best before after,
    fst (selectBest Sample.ranked []) = Normal best
    /\ Sample.ranked = before ++ best :: after
    /\ Forall (fun c => (PathMatchResult.confidence c
                         < PathMatchResult.confidence best)%Q) before
    /\ Forall (fun c => (PathMatchResult.confidence c
                         <= PathMatchResult.confidence best)%Q) after.
Proof.
  apply (proj1 (selects_first_maximal_candidate Sample.disk Sample.join)).
  discriminate.
Defined.

(** The scan of the season torrent: the two files that exist are the
    eleventh and the twelfth entry, beyond everything that is logged. *)
Lemma scan_visits_every_entry_witness :
  exists st,
    fst (scanLoop Sample.disk Sample.join "/mnt/data/season" 0
                  Sample.seasonFiles (mkScan [] 0 0) [])
    = Normal st
    /\ existingFiles st = 2
    /\ perfectMatches st = 1
    /\ List.length (matches st) = 12
    /\ fst (validateMultiFileStructure Sample.disk Sample.join "/mnt/data/season"
                                       Sample.seasonFiles [])
       = Normal (Some (PathMatchResult.mk "/mnt/data/season"
                         (score (existingFiles st) (perfectMatches st) 12)
                         (matches st) 12 (existingFiles st) [])).
Proof.
  destruct (scan_visits_every_entry Sample.disk Sample.join
              "/mnt/data/season"%string Sample.seasonFiles [])
    as (st & Hrun & Hexisting & Hperfect & Hall & _ & Hresult).
  exists st. split; [exact Hrun|].
  split; [rewrite Hexisting; reflexivity|].
  split; [rewrite Hperfect; reflexivity|].
  split; [rewrite <- (Forall2_length Hall); reflexivity|].
  apply (Hresult (Stats.mk 4096 Directory)); reflexivity.
Defined.

(** The evidence recorded for the season torrent: ten failed stats, two
    successful ones, no exception. *)
Lemma stat_failure_is_evidence_witness :
  exists r,
    fst (validateMultiFileStructure Sample.disk Sample.join "/mnt/data/season"
                                    Sample.seasonFiles [])
    = Normal (Some r)
    /\ Forall2 (fun f m =>
                  match Sample.disk (Sample.join "/mnt/data/season"
                                                 (ExpectedFile.path f)) with
                  | None =>
                      FileMatch.exists_ m = false
                      /\ FileMatch.actualSize m = 0%Z
                      /\ FileMatch.sizeMatch m = false
                  | Some stat =>
                      FileMatch.exists_ m = true
                      /\ FileMatch.actualSize m = Stats.size stat
                      /\ FileMatch.expectedSize m = ExpectedFile.size f
                      /\ FileMatch.sizeMatch m
                         = (FileMatch.actualSize m =? FileMatch.expectedSize m)%Z
                  end)
               Sample.seasonFiles (PathMatchResult.matches r).
Proof.
  destruct (stat_failure_is_evidence Sample.disk Sample.join
              "/mnt/data/season"%string Sample.seasonFiles [])
    as (o & Hrun & Hall).
  destruct o as [r|]; [|vm_compute in Hrun; discriminate Hrun].
  exists r. split; [exact Hrun|]. apply Hall. reflexivity.
Defined.

(** The counters and ratios of the season torrent. *)
Lemma evidence_counts_are_ordered_witness :
  exists st,
    fst (scanLoop Sample.disk Sample.join "/mnt/data/season" 0
                  Sample.seasonFiles (mkScan [] 0 0) [])
    = Normal st
    /\ perfectMatches st <= existingFiles st <= 12
    /\ (0 <= existenceRatio (existingFiles st) 12 <= 1)%Q
    /\ (0 <= perfectMatchRatio (perfectMatches st) (existingFiles st) <= 1)%Q.
Proof.
  destruct (evidence_counts_are_ordered Sample.disk Sample.join
              "/mnt/data/season"%string Sample.seasonFiles [])
    as (st & Hrun & _ & _ & _ & Horder & Hratios & _).
  exists st. split; [exact Hrun|]. split; [exact Horder|].
  apply Hratios.
  assert (Hst : Normal st
                = fst (scanLoop Sample.disk Sample.join "/mnt/data/season" 0
                                Sample.seasonFiles (mkScan [] 0 0) []))
    by (symmetry; exact Hrun).
  vm_compute in Hst. inversion Hst. cbn. lia.
Defined.

(** * The scores of the documented scenarios *)

(** All ten files present with the right sizes: 0.7 + 0.3 + 0.1. *)
Example score_all_present : (score 10 10 10 == 11 # 10)%Q.
Proof. vm_compute. reflexivity. Qed.

(** Six of ten present, all six matching: 0.42 + 0.3, above the floor. *)
Example score_six_of_ten : (score 6 6 10 == 72 # 100)%Q.
Proof. vm_compute. reflexivity. Qed.

(** Nine of ten present, none matching: 0.63 plus the bonus. *)
Example score_nine_of_ten_mismatched : (score 9 0 10 == 73 # 100)%Q.
Proof. vm_compute. reflexivity. Qed.

(** Six of ten present, none matching: 0.42 raised to the floor. *)
Example score_floor : (score 6 0 10 == 6 # 10)%Q.
Proof. vm_compute. reflexivity. Qed.

(** Nothing present. *)
Example score_nothing_present : (score 0 0 10 == 0)%Q.
Proof. vm_compute. reflexivity. Qed.

(** Half of a single file. *)
Example grade_half : (grade 500 1000 == 65 # 100)%Q.
Proof. vm_compute. reflexivity. Qed.

(** An empty or an oversized single file. *)
Example grade_mismatch : (grade 0 1000 == 2 # 10)%Q /\ (grade 1001 1000 == 2 # 10)%Q.
Proof. split; vm_compute; reflexivity. Qed.

(** The movie torrent against a 400-byte copy and the complete file: the
    complete file wins with confidence 1. *)
Example movie_end_to_end :
  match findCorrectTorrentPath Sample.disk Sample.join Sample.movie
                               ["/mnt/old/movie.mkv"; "/mnt/data/movie.mkv"]%string with
  | Normal best =>
      PathMatchResult.basePath best = "/mnt/data/movie.mkv"%string
      /\ (PathMatchResult.confidence best == 1)%Q
  | Throw _ => False
  end.
Proof. vm_compute. split; reflexivity. Qed.

(** The album torrent found directly under its folder, with the log
    snapshot taken when the candidate was pushed left aside. *)
Example album_end_to_end :
  match findCorrectTorrentPath Sample.disk Sample.join Sample.album
                               ["/mnt/old"; "/mnt/data"; "/mnt/data/album"]%string with
  | Normal best =>
      PathMatchResult.basePath best = "/mnt/data"%string
      /\ PathMatchResult.existingFiles best = 2
      /\ (PathMatchResult.confidence best == 11 # 10)%Q
  | Throw _ => False
  end.
Proof. vm_compute. repeat split; reflexivity. Qed.

(** * Beyond the claims, at concrete inputs *)

(** The movie torrent against its two copies: the returned path is the hit
    that holds the complete file. *)
Lemma returned_path_is_a_search_hit_witness :
  exists best,
    findCorrectTorrentPath Sample.disk Sample.join Sample.movie
                           ["/mnt/old/movie.mkv"; "/mnt/data"]%string
    = Normal best
    /\ In (PathMatchResult.basePath best) ["/mnt/old/movie.mkv"; "/mnt/data"]%string.
Proof.
  destruct (findCorrectTorrentPath Sample.disk Sample.join Sample.movie
              ["/mnt/old/movie.mkv"; "/mnt/data"]%string)
    as [best|e] eqn:Hrun; [|vm_compute in Hrun; discriminate Hrun].
  exists best. split; [reflexivity|].
  exact (proj1 (@returned_path_is_a_search_hit _ _ _ _ _ Hrun)).
Defined.

(** The album torrent: two matches, two of them existing. *)
Lemma returned_counters_agree_with_evidence_witness :
  exists best,
    findCorrectTorrentPath Sample.disk Sample.join Sample.album
                           ["/mnt/old"; "/mnt/data"]%string
    = Normal best
    /\ consistent best
    /\ PathMatchResult.totalFiles best = 2.
Proof.
  destruct (findCorrectTorrentPath Sample.disk Sample.join Sample.album
              ["/mnt/old"; "/mnt/data"]%string)
    as [best|e] eqn:Hrun; [|vm_compute in Hrun; discriminate Hrun].
  exists best. split; [reflexivity|].
  exact (@returned_counters_agree_with_evidence _ _ _ _ _ Hrun).
Defined.

(** The album torrent: the confidence is the score of its counters. *)
Lemma returned_confidence_follows_from_evidence_witness :
  exists best,
    findCorrectTorrentPath Sample.disk Sample.join Sample.album
                           ["/mnt/old"; "/mnt/data"]%string
    = Normal best
    /\ PathMatchResult.confidence best
       = score (PathMatchResult.existingFiles best)
               (tally FileMatch.sizeMatch (PathMatchResult.matches best))
               (PathMatchResult.totalFiles best).
Proof.
  destruct (findCorrectTorrentPath Sample.disk Sample.join Sample.album
              ["/mnt/old"; "/mnt/data"]%string)
    as [best|e] eqn:Hrun; [|vm_compute in Hrun; discriminate Hrun].
  exists best. split; [reflexivity|].
  exact (@returned_confidence_follows_from_evidence _ _ _ _ _ Hrun).
Defined.

(** The torrent without files against directories that exist. *)
Lemma empty_file_list_is_never_located_witness :
  findCorrectTorrentPath Sample.disk Sample.join Sample.hollow
                         ["/mnt/data"; "/mnt/old"]%string
  = Throw TypeError_reduce_empty.
Proof.
  apply empty_file_list_is_never_located. reflexivity.
Defined.

(** A Windows save path with a trailing backslash. *)
Lemma normalizeSavePath_no_trailing_separator_witness :
  lastChar (normalizeSavePath "C:\Users\me\Downloads\") <> Some "/"%char.
Proof.
  apply normalizeSavePath_no_trailing_separator.
  unfold occursIn. cbn. intros H.
  repeat (destruct H as [H|H]; [discriminate H|]). exact H.
Defined.

(** The same folder on drives C and D. *)
Lemma drive_letter_changes_key_not_search_witness :
  normalizeSavePath "C:\Torrents\album" = normalizeSavePath "D:\Torrents\album"
  /\ sanitizePath "C:\Torrents\album" <> sanitizePath "D:\Torrents\album".
Proof.
  destruct (drive_letter_changes_key_not_search
              "C"%char "D"%char "Torrents\album" eq_refl eq_refl) as [Hsame Hkeys].
  split; [exact Hsame|]. apply Hkeys. discriminate.
Defined.

(** A drive path with two trailing backslashes. *)
Lemma normalizeSavePath_drive_path_witness :
  normalizeSavePath "e:\Torrents\album\\" = "Torrents/album"%string.
Proof.
  apply (normalizeSavePath_drive_path "e"%char "Torrents\album" 2).
  - reflexivity.
  - discriminate.
Defined.

(** Two or five exact matches among six files out of ten. *)
Lemma score_monotone_in_perfect_matches_witness :
  (score 6 2 10 <= score 6 5 10)%Q.
Proof.
  apply score_monotone_in_perfect_matches; lia.
Defined.

(** A 400-byte copy against an empty file, and against a 700-byte copy. *)
Lemma grade_ranks_the_evidence_witness :
  (grade 0 1000 < grade 400 1000)%Q
  /\ (grade 400 1000 <= grade 700 1000)%Q
  /\ (grade 400 1000 < grade 700 1000)%Q.
Proof.
  destruct (grade_ranks_the_evidence 400 0 1000) as (_ & Hmismatch & _).
  destruct (grade_ranks_the_evidence 400 700 1000) as (_ & _ & Hlarger).
  destruct Hlarger as [Hle Hlt]; [lia|lia|].
  split; [apply Hmismatch; lia|]. split; [exact Hle|]. apply Hlt. lia.
Defined.

(** One exact file of five, then a second file of the wrong size. *)
Lemma extra_mismatched_file_can_lower_score_witness :
  (score (1 + 1) 1 5 < score 1 1 5)%Q.
Proof.
  apply extra_mismatched_file_can_lower_score; lia.
Defined.

(** The helpers on a Windows save path. *)
Example sanitizePath_sample :
  sanitizePath "C:\Users\me\Downloads" = "C-Users-me-Downloads"%string.
Proof. reflexivity. Qed.

Example normalizeSavePath_sample :
  normalizeSavePath "C:\Users\me\Downloads\" = "Users/me/Downloads"%string.
Proof. reflexivity. Qed.

(** Two lines of output: the first directory has neither a configuration
    file beside it nor a torrent file inside, the second holds a resume
    file. *)
Example findBTBackup_sample :
  findBTBackup Sample.disk Sample.join Sample.readdir Sample.dirname Sample.trim
               (Some ("/mnt/data" ++ String "010" "/mnt/old")%string)
  = Some "/mnt/old"%string.
Proof. vm_compute. reflexivity. Qed.

(** A resume file of the backup directory and the torrent beside it. *)
Lemma torrent_and_fastresume_names_pair_up_witness :
  torrentOfFastResume "/backup/0a1b2c.fastresume" = "/backup/0a1b2c.torrent"%string
  /\ fastResumeOfTorrent (torrentOfFastResume "/backup/0a1b2c.fastresume")
     = "/backup/0a1b2c.fastresume"%string.
Proof.
  destruct (torrent_and_fastresume_names_pair_up "/backup/0a1b2c.fastresume")
    as (Hresume & _).
  destruct (Hresume eq_refl) as [_ Hback].
  split; [reflexivity|exact Hback].
Defined.

